(** * SmartBolus: RTSTRUCT contours to a centred surface mesh

    A shallow embedding of [src/stl.py] and [src/stlComInterface.py].

    Numbers.  DICOM decimal strings reach the code as floating-point
    values; they are modelled here as exact rationals ([Q]), so rounding,
    infinities and NaN are outside the model.

    Exceptions.  A computation either returns a value or raises; the
    exception carries its Python class and, where the source supplies the
    text, its message.

    External libraries.  [matplotlib.path.Path.contains_points],
    [skimage.measure.marching_cubes] and [trimesh.Trimesh] are not part of
    the repository.  They are the fields of the class [Geometry]; every
    definition of the pipeline is parametric in it. *)

From Stdlib Require Import QArith Qabs Lqa String Ascii Lia Sorted Permutation.
From Stdlib Require Import DecimalString.
From stdpp Require Import base list.

Local Open Scope string_scope.
Local Open Scope list_scope.
Local Open Scope stdpp_scope.

#[local] Arguments Qabs : simpl never.
#[local] Arguments Qminus : simpl never.
#[local] Arguments Qplus : simpl never.
#[local] Arguments Qmult : simpl never.
#[local] Arguments Qdiv : simpl never.
#[local] Arguments Qopp : simpl never.

(** ** Exceptions and the error monad *)

Inductive exn : Type :=
| IndexError                  (* list or ndarray index out of range *)
| ValueError (msg : string)   (* [raise ValueError(msg)] of the source *)
| NumpyValueError             (* ValueError raised inside numpy: reshape, argmin *)
| LibraryError (msg : string) (* raised by an external geometry routine *).

Inductive result (A : Type) : Type :=
| Ok (a : A)
| Raise (e : exn).
Arguments Ok {A} a.
Arguments Raise {A} e.

#[global] Instance result_ret : MRet result := fun A a => Ok a.
#[global] Instance result_bind : MBind result := fun A B f m =>
  match m with
  | Ok a => f a
  | Raise e => Raise e
  end.

(** [for x in l: acc = f(acc, x)], where the body may raise. *)
Fixpoint foldM {A B : Type} (f : B -> A -> result B) (b : B) (l : list A) : result B :=
  match l with
  | [] => Ok b
  | a :: l' => b' ← f b a; foldM f b' l'
  end.

(** ** Python built-ins *)

Module Py.

(** [l[i]] on a Python list. *)
Definition getitem {A : Type} (l : list A) (i : nat) : result A :=
  match l !! i with
  | Some a => Ok a
  | None => Raise IndexError
  end.

Definition ascii_lower (c : ascii) : ascii :=
  let n := nat_of_ascii c in
  if (65 <=? n)%nat && (n <=? 90)%nat then ascii_of_nat (n + 32) else c.

(** [str.lower()], on the ASCII letters. *)
Fixpoint lower (s : string) : string :=
  match s with
  | EmptyString => EmptyString
  | String c s' => String (ascii_lower c) (lower s')
  end.

(** [s.endswith(suffix)] *)
Definition endswith (s suffix : string) : bool :=
  let n := String.length s in
  let m := String.length suffix in
  if (m <=? n)%nat then String.eqb (substring (n - m) m s) suffix else false.

Section Sort.
Context {A : Type} (key : A -> Q).

Definition key_le (a b : A) : Prop := (key a <= key b)%Q.

(** [x] is placed before the first element whose key is not smaller:
    elements with equal keys keep their order, as [list.sort] does. *)
Fixpoint insert_by (x : A) (l : list A) : list A :=
  match l with
  | [] => [x]
  | y :: l' => if Qle_bool (key x) (key y) then x :: y :: l' else y :: insert_by x l'
  end.

(** [l.sort(key=key)]: the stable ascending sort. *)
Fixpoint sort_by (l : list A) : list A :=
  match l with
  | [] => []
  | x :: l' => insert_by x (sort_by l')
  end.
End Sort.

End Py.

(** ** numpy *)

Module Np.

(** A two-dimensional array: its shape and its rows. *)
Record ndarray2 (A : Type) : Type := mk_ndarray2 {
  shape2 : nat * nat;
  rows2 : list (list A)
}.
Arguments mk_ndarray2 {A} _ _.
Arguments shape2 {A} _.
Arguments rows2 {A} _.

(** A three-dimensional [uint8] array indexed (slice, row, column). *)
Record ndarray3 : Type := mk_ndarray3 {
  shape3 : nat * nat * nat;
  planes : list (list (list Z))
}.

(** [np.zeros((n, r, c), dtype=np.uint8)] *)
Definition zeros (shape : nat * nat * nat) : ndarray3 :=
  let '(n, r, c) := shape in
  mk_ndarray3 shape (replicate n (replicate r (replicate c 0%Z))).

(** [np.array(l).reshape(-1, 3)]: the rows of three; the size must be a
    multiple of three. *)
Fixpoint reshape3 (l : list Q) : result (list (Q * Q * Q)) :=
  match l with
  | [] => Ok []
  | x :: y :: z :: l' => pts ← reshape3 l'; Ok ((x, y, z) :: pts)
  | _ => Raise NumpyValueError
  end.

(** [pts[0, 2]] *)
Definition getitem_0_2 (pts : list (Q * Q * Q)) : result Q :=
  match pts with
  | [] => Raise IndexError
  | (_, _, z) :: _ => Ok z
  end.

Definition Qlt_bool (x y : Q) : bool := negb (Qle_bool y x).

Fixpoint argmin_from (best_i : nat) (best : Q) (i : nat) (l : list Q) : nat :=
  match l with
  | [] => best_i
  | x :: l' =>
      if Qlt_bool x best then argmin_from i x (S i) l'
      else argmin_from best_i best (S i) l'
  end.

(** [np.argmin(a)]: the first index of the minimum. *)
Definition argmin (a : list Q) : result nat :=
  match a with
  | [] => Raise NumpyValueError
  | x :: l => Ok (argmin_from 0 x 1 l)
  end.

(** [np.arange(n)] *)
Definition arange (n : nat) : list nat := seq 0 n.

(** [np.meshgrid(a, b, indexing='ij')]: [rr[i][j] = a[i]], [cc[i][j] = b[j]]. *)
Definition meshgrid_ij (a b : list nat) : list (list nat) * list (list nat) :=
  (map (fun i => map (fun _ => i) b) a, map (fun _ => b) a).

(** [a.flatten()] of a two-dimensional array. *)
Definition flatten {A : Type} (a : list (list A)) : list A := concat a.

(** [np.vstack((a, b)).T]: the rows [(a[i], b[i])]. *)
Definition vstack_T {A B : Type} (a : list A) (b : list B) : list (A * B) := zip a b.

Fixpoint chunks {A : Type} (r c : nat) (l : list A) : list (list A) :=
  match r with
  | O => []
  | S r' => take c l :: chunks r' c (drop c l)
  end.

(** [a.reshape((r, c))] of a one-dimensional array. *)
Definition reshape2 {A : Type} (shape : nat * nat) (a : list A) : result (ndarray2 A) :=
  if decide (length a = fst shape * snd shape)
  then Ok (mk_ndarray2 shape (chunks (fst shape) (snd shape) a))
  else Raise NumpyValueError.

(** [mask[idx].shape] *)
Definition plane_shape (m : ndarray3) : nat * nat :=
  let '(_, r, c) := shape3 m in (r, c).

(** [mask[idx][b] = v]: boolean-mask assignment into the view [mask[idx]];
    the shape of [b] must be the shape of the plane. *)
Definition setitem_where (m : ndarray3) (idx : nat) (b : ndarray2 bool) (v : Z)
  : result ndarray3 :=
  match planes m !! idx with
  | None => Raise IndexError
  | Some p =>
      if decide (shape2 b = plane_shape m)
      then Ok (mk_ndarray3 (shape3 m)
                 (<[idx := zip_with (zip_with (fun old (flag : bool) => if flag then v else old))
                             p (rows2 b)]> (planes m)))
      else Raise IndexError
  end.

(** [m[k, r, c]] *)
Definition cell (m : ndarray3) (k r c : nat) : option Z :=
  p ← planes m !! k; row ← p !! r; row !! c.

(** [a[r, c]] on a two-dimensional array. *)
Definition getitem2 {A : Type} (a : ndarray2 A) (r c : nat) : option A :=
  row ← rows2 a !! r; row !! c.

End Np.

(** ** pydicom datasets

    A dataset is a record of the attributes the code reads.
    [ImagePositionPatient] is (x, y, z); [PixelSpacing] is the pair
    ([PixelSpacing[0]], [PixelSpacing[1]]). *)

Record CTSlice : Type := mk_CTSlice {
  ImagePositionPatient : Q * Q * Q;
  PixelSpacing : Q * Q;
  Rows : nat;
  Columns : nat
}.

Record ROI : Type := mk_ROI {
  ROIName : string;
  ROINumber : Z
}.

Record Contour : Type := mk_Contour {
  ContourData : list Q
}.

Record ROIContour : Type := mk_ROIContour {
  ReferencedROINumber : Z;
  ContourSequence : list Contour
}.

Record RTStruct : Type := mk_RTStruct {
  StructureSetROISequence : list ROI;
  ROIContourSequence : list ROIContour
}.

(** [os.listdir(ct_folder)] paired with what [pydicom.dcmread] returns for
    each entry. *)
Definition Folder : Type := list (string * CTSlice).

Definition px (p : Q * Q * Q) : Q := fst (fst p).
Definition py (p : Q * Q * Q) : Q := snd (fst p).
Definition pz (p : Q * Q * Q) : Q := snd p.

(** ** Meshes and the external geometry routines *)

Definition V3 : Type := Q * Q * Q.

Definition v3_add (a b : V3) : V3 := (px a + px b, py a + py b, pz a + pz b)%Q.
Definition v3_opp (a : V3) : V3 := (- px a, - py a, - pz a)%Q.
Definition v3_eq (a b : V3) : Prop := (px a == px b /\ py a == py b /\ pz a == pz b)%Q.

Record Trimesh : Type := mk_Trimesh {
  vertices : list V3;
  faces : list (nat * nat * nat);
  vertex_normals : list V3
}.

(** Modelled from the spec: [trimesh.Trimesh.apply_translation] is not part
    of the repository; [mesh.apply_translation(t)] is the rigid translation
    that moves every vertex by [t]. *)
Definition apply_translation (t : V3) (mesh : Trimesh) : Trimesh :=
  mk_Trimesh (map (fun v => v3_add v t) (vertices mesh)) (faces mesh) (vertex_normals mesh).

(** What marching cubes returns: vertices, faces, normals, values. *)
Definition Surface : Type := list V3 * list (nat * nat * nat) * list V3 * list Q.

Class Geometry : Type := {
  (** [Path(poly).contains_point(pt)]; [contains_points] maps it over an
      array of points. *)
  contains_point : list (Q * Q) -> Q * Q -> bool;
  (** [measure.marching_cubes(volume, level=level, spacing=spacing)] *)
  marching_cubes : Np.ndarray3 -> Q -> Q * Q * Q -> result Surface;
  (** [trimesh.Trimesh(vertices=, faces=, vertex_normals=)] *)
  Trimesh_init : list V3 -> list (nat * nat * nat) -> list V3 -> Trimesh;
  (** [mesh.centroid] *)
  centroid : Trimesh -> V3
}.

(** The files written and the lines printed so far, newest first. *)
Record World : Type := mk_World {
  files : list (string * Trimesh);
  stdout : list string
}.

(** [mesh.export(path)] *)
Definition export (mesh : Trimesh) (path : string) (w : World) : World :=
  mk_World ((path, mesh) :: files w) (stdout w).

Definition print (line : string) (w : World) : World :=
  mk_World (files w) (line :: stdout w).

(** The [.dcm] entries of the folder, in listing order (line 59). *)
Definition read_slices (ct_folder : Folder) : list CTSlice :=
  map snd (filter (fun f => Is_true (Py.endswith (fst f) ".dcm")) ct_folder).

(** The sorted slices of a folder, as both files compute them. *)
Definition sorted_slices (ct_folder : Folder) : list CTSlice :=
  Py.sort_by (fun s => pz (ImagePositionPatient s)) (read_slices ct_folder).

(** The message of the [ValueError] raised for an unknown structure. *)
Definition not_found_message (structure_name : string) : string :=
  String.append "Estrutura '" (String.append structure_name "' não encontrada no RTSTRUCT.").

(** Lines 69-73: the number of the first ROI whose lower-cased name is the
    lower-cased target. *)
Fixpoint find_structure_index (rois : list ROI) (structure_name : string) : option Z :=
  match rois with
  | [] => None
  | roi :: rois' =>
      if String.eqb (Py.lower (ROIName roi)) (Py.lower structure_name)
      then Some (ROINumber roi)
      else find_structure_index rois' structure_name
  end.

(** No ROI of the structure set has the target name, case-insensitively. *)
Definition no_roi_named (rtstruct : RTStruct) (structure_name : string) : Prop :=
  Forall (fun roi => Py.lower (ROIName roi) <> Py.lower structure_name)
         (StructureSetROISequence rtstruct).


Definition Q_of_nat (n : nat) : Q := inject_Z (Z.of_nat n).

(** The grid points (column, row) in row-major order:
    [np.vstack((cc.flatten(), rr.flatten())).T]. *)
Definition grid_coords (rows cols : nat) : list (Q * Q) :=
  let '(rr, cc) := Np.meshgrid_ij (Np.arange rows) (Np.arange cols) in
  map (fun p => (Q_of_nat (fst p), Q_of_nat (snd p)))
      (Np.vstack_T (Np.flatten cc) (Np.flatten rr)).

(** ** src/stl.py *)

Module Stl.
Section WithGeometry.
Context `{G : Geometry}.

Definition get_structure_names (rtstruct : RTStruct) : list string :=
  map ROIName (StructureSetROISequence rtstruct).

(** Lines 81-83: the points of the contour and its slice index. *)
Definition contour_slice (z_positions : list Q) (contour : Contour)
  : result (list (Q * Q * Q) * nat) :=
  pts ← Np.reshape3 (ContourData contour);
  z ← Np.getitem_0_2 pts;
  slice_idx ← Np.argmin (map (fun p => Qabs (p - z)) z_positions);
  Ok (pts, slice_idx).

(** Lines 85-86 and 89: the polygon in (column, row) index coordinates. *)
Definition polygon (s0 : CTSlice) (pixel_spacing : Q * Q) (pts : list (Q * Q * Q))
  : list (Q * Q) :=
  let row_coords := map (fun p => (py p - py (ImagePositionPatient s0)) / snd pixel_spacing)%Q pts in
  let col_coords := map (fun p => (px p - px (ImagePositionPatient s0)) / fst pixel_spacing)%Q pts in
  Np.vstack_T col_coords row_coords.

(** Lines 88-91: [inside], one flag per grid point. *)
Definition inside_flags (s0 : CTSlice) (pixel_spacing : Q * Q) (pts : list (Q * Q * Q))
  : list bool :=
  map (contains_point (polygon s0 pixel_spacing pts)) (grid_coords (Rows s0) (Columns s0)).

(** Lines 81-93: the slice index of a contour and its two-dimensional
    mask [mask_slice]. *)
Definition rasterize_contour (s0 : CTSlice) (pixel_spacing : Q * Q) (z_positions : list Q)
    (contour : Contour) : result (nat * Np.ndarray2 bool) :=
  '(pts, slice_idx) ← contour_slice z_positions contour;
  let inside := inside_flags s0 pixel_spacing pts in
  mask_slice ← Np.reshape2 (Rows s0, Columns s0) inside;
  Ok (slice_idx, mask_slice).

(** Lines 81-94: the body of the loop over the contours of the structure. *)
Definition paint_contour (s0 : CTSlice) (pixel_spacing : Q * Q) (z_positions : list Q)
    (mask : Np.ndarray3) (contour : Contour) : result Np.ndarray3 :=
  '(slice_idx, mask_slice) ← rasterize_contour s0 pixel_spacing z_positions contour;
  Np.setitem_where mask slice_idx mask_slice 1.

(** Lines 78-94. *)
Definition paint_structure (s0 : CTSlice) (pixel_spacing : Q * Q) (z_positions : list Q)
    (structure_index : Z) (mask : Np.ndarray3) (roi_contours : list ROIContour)
  : result Np.ndarray3 :=
  foldM (fun mask roi_contour =>
           if (ReferencedROINumber roi_contour =? structure_index)%Z
           then foldM (paint_contour s0 pixel_spacing z_positions) mask
                      (ContourSequence roi_contour)
           else Ok mask)
        mask roi_contours.

(** Lines 59-64: the sorted slices, their positions, the in-plane spacing
    and the inter-slice spacing. *)
Definition slice_stack (ct_folder : Folder)
  : result (list CTSlice * list Q * (Q * Q) * Q) :=
  let slices := Py.sort_by (fun s => pz (ImagePositionPatient s)) (read_slices ct_folder) in
  let z_positions := map (fun s => pz (ImagePositionPatient s)) slices in
  s0 ← Py.getitem slices 0;
  let pixel_spacing := PixelSpacing s0 in
  s1 ← Py.getitem slices 1;
  s0 ← Py.getitem slices 0;
  let slice_thickness := Qabs (pz (ImagePositionPatient s1) - pz (ImagePositionPatient s0)) in
  Ok (slices, z_positions, pixel_spacing, slice_thickness).

(** [slices[0]] is read again wherever lines 65-93 mention it; the list
    does not change after the sort. *)
Definition extract_structure_mask (rtstruct : RTStruct) (ct_folder : Folder)
    (structure_name : string) : result (Np.ndarray3 * (Q * Q) * Q) :=
  '(slices, z_positions, pixel_spacing, slice_thickness) ← slice_stack ct_folder;
  s0 ← Py.getitem slices 0;
  let shape := (length slices, Rows s0, Columns s0) in
  let mask := Np.zeros shape in
  match find_structure_index (StructureSetROISequence rtstruct) structure_name with
  | None => Raise (ValueError (not_found_message structure_name))
  | Some structure_index =>
      mask ← paint_structure s0 pixel_spacing z_positions structure_index mask
               (ROIContourSequence rtstruct);
      Ok (mask, pixel_spacing, slice_thickness)
  end.

(** The voxel spacing handed to marching cubes (line 112), for the axes
    (slice, row, column) of the mask. *)
Definition voxel_spacing (pixel_spacing : Q * Q) (slice_thickness : Q) : Q * Q * Q :=
  (slice_thickness, fst pixel_spacing, snd pixel_spacing).

Definition mask_to_stl (mask : Np.ndarray3) (pixel_spacing : Q * Q) (slice_thickness : Q)
    (output_path : string) (w : World) : result unit * World :=
  match marching_cubes mask (1 # 2) (voxel_spacing pixel_spacing slice_thickness) with
  | Raise e => (Raise e, w)
  | Ok (verts, faces, normals, _) =>
      let mesh := Trimesh_init verts faces normals in
      let mesh := apply_translation (v3_opp (centroid mesh)) mesh in
      let w := export mesh output_path w in
      let w := print (String.append "✅ STL exportado para: " output_path) w in
      let w := print "📏 Modelo centralizado no ponto (0,0,0)" w in
      (Ok tt, w)
  end.

End WithGeometry.
End Stl.

(** ** src/stlComInterface.py *)

Module StlComInterface.
Section WithGeometry.
Context `{G : Geometry}.

Definition get_structure_names (rtstruct : RTStruct) : list string :=
  map ROIName (StructureSetROISequence rtstruct).

(** [z_positions[i]] on the numpy array. *)
Definition z_at (z_positions : list Q) (i : nat) : result Q :=
  match z_positions !! i with
  | Some z => Ok z
  | None => Raise IndexError
  end.

(** Lines 91-93: the points of the contour and its slice index. *)
Definition contour_slice (z_positions : list Q) (contour : Contour)
  : result (list (Q * Q * Q) * nat) :=
  pts ← Np.reshape3 (ContourData contour);
  z ← Np.getitem_0_2 pts;
  slice_idx ← Np.argmin (map (fun p => Qabs (p - z)) z_positions);
  Ok (pts, slice_idx).

(** Lines 91-104: the body of the loop over the contours of the structure. *)
Definition paint_contour (s0 : CTSlice) (pixel_spacing : Q * Q) (z_positions : list Q)
    (mask : Np.ndarray3) (contour : Contour) : result Np.ndarray3 :=
  '(pts, slice_idx) ← contour_slice z_positions contour;
  let row_coords := map (fun p => (py p - py (ImagePositionPatient s0)) / snd pixel_spacing)%Q pts in
  let col_coords := map (fun p => (px p - px (ImagePositionPatient s0)) / fst pixel_spacing)%Q pts in
  let poly := Np.vstack_T col_coords row_coords in
  let inside := map (contains_point poly) (grid_coords (Rows s0) (Columns s0)) in
  _ ← Py.getitem (Np.planes mask) slice_idx;
  mask_slice ← Np.reshape2 (Np.plane_shape mask) inside;
  Np.setitem_where mask slice_idx mask_slice 1.

Definition extract_structure_mask (rtstruct : RTStruct) (ct_folder : Folder)
    (structure_name : string) : result (Np.ndarray3 * (Q * Q) * Q) :=
  let slices := Py.sort_by (fun s => pz (ImagePositionPatient s)) (read_slices ct_folder) in
  let z_positions := map (fun s => pz (ImagePositionPatient s)) slices in
  s0 ← Py.getitem slices 0;
  let pixel_spacing := PixelSpacing s0 in
  z1 ← z_at z_positions 1;
  z0 ← z_at z_positions 0;
  let slice_thickness := Qabs (z1 - z0) in
  let mask := Np.zeros (length slices, Rows s0, Columns s0) in
  match find_structure_index (StructureSetROISequence rtstruct) structure_name with
  | None => Raise (ValueError (not_found_message structure_name))
  | Some structure_index =>
      mask ← foldM (fun mask roi_contour =>
                      if (ReferencedROINumber roi_contour =? structure_index)%Z
                      then foldM (paint_contour s0 pixel_spacing z_positions) mask
                                 (ContourSequence roi_contour)
                      else Ok mask)
                   mask (ROIContourSequence rtstruct);
      Ok (mask, pixel_spacing, slice_thickness)
  end.

Definition mask_to_stl (mask : Np.ndarray3) (pixel_spacing : Q * Q) (slice_thickness : Q)
    (output_path : string) (w : World) : result unit * World :=
  match marching_cubes mask (1 # 2) (slice_thickness, fst pixel_spacing, snd pixel_spacing) with
  | Raise e => (Raise e, w)
  | Ok (verts, faces, normals, _) =>
      let mesh := Trimesh_init verts faces normals in
      let mesh := apply_translation (v3_opp (centroid mesh)) mesh in
      let w := export mesh output_path w in
      (Ok tt, w)
  end.

End WithGeometry.
End StlComInterface.

(** ** Notions used by the properties *)

(** [m] at index [j] is a minimum of [l], and the first one. *)
Definition first_minimum (l : list Q) (j : nat) (m : Q) : Prop :=
  l !! j = Some m /\
  (forall k x, l !! k = Some x -> (m <= x)%Q) /\
  (forall k x, k < j -> l !! k = Some x -> (m < x)%Q).

(** The flags of the grid, row by row. *)
Definition flag_rows (f : Q * Q -> bool) (rows cols : nat) : list (list bool) :=
  map (fun r => map (fun c => f (Q_of_nat c, Q_of_nat r)) (seq 0 cols)) (seq 0 rows).

(** The planes of the volume have the shape of the grid of [s0]. *)
Definition plane_is_grid (s0 : CTSlice) (mask : Np.ndarray3) : Prop :=
  Np.plane_shape mask = (Rows s0, Columns s0).

(** The contours the loop of lines 78-80 visits for a structure index, in
    the order it visits them. *)
Definition structure_contours (rtstruct : RTStruct) (structure_index : Z) : list Contour :=
  flat_map (fun roi_contour =>
              if (ReferencedROINumber roi_contour =? structure_index)%Z
              then ContourSequence roi_contour else [])
           (ROIContourSequence rtstruct).

(** The cell (k, r, c) is occupied in the individually rasterized mask of
    the contour: the contour is assigned to slice [k] and its
    two-dimensional mask is true at (r, c). *)
Definition covers `{G : Geometry} (s0 : CTSlice) (pixel_spacing : Q * Q) (z_positions : list Q)
    (contour : Contour) (k r c : nat) : bool :=
  match Stl.rasterize_contour s0 pixel_spacing z_positions contour with
  | Ok (slice_idx, mask_slice) =>
      (slice_idx =? k)%nat && default false (Np.getitem2 mask_slice r c)
  | Raise _ => false
  end.

(** The logical OR, over a list of contours, of their rasterized masks. *)
Definition union_covers `{G : Geometry} (s0 : CTSlice) (pixel_spacing : Q * Q)
    (z_positions : list Q) (contours : list Contour) (k r c : nat) : bool :=
  existsb (fun contour => covers s0 pixel_spacing z_positions contour k r c) contours.

(** Modelled from the spec: [matplotlib.path.Path.contains_points] is not
    part of the repository; on a polygon of fewer than three vertices the
    point-in-polygon test returns false for every point. *)
Definition degenerate_outside (G : Geometry) : Prop :=
  forall (poly : list (Q * Q)) (pt : Q * Q), length poly < 3 -> contains_point poly pt = false.

(** ** Volumes without an isosurface *)

Definition all_cells (f : Z -> bool) (m : Np.ndarray3) : bool :=
  forallb (forallb (forallb f)) (Np.planes m).

(** No cell boundary crosses the level 0.5: every cell is below it or every
    cell is above it. *)
Definition no_crossing (m : Np.ndarray3) : bool :=
  all_cells (fun v => v <=? 0)%Z m || all_cells (fun v => 1 <=? v)%Z m.

(** [PixelSpacing] is the pair (row spacing, column spacing): line 112 hands
    [pixel_spacing[0]] to marching cubes for the row axis of the volume and
    [pixel_spacing[1]] for its column axis. *)
Definition row_spacing (pixel_spacing : Q * Q) : Q := fst pixel_spacing.
Definition column_spacing (pixel_spacing : Q * Q) : Q := snd pixel_spacing.

(** Modelled from the spec: [skimage.measure.marching_cubes] is not part of
    the repository; on a volume with no boundary crossing the level 0.5 the
    extraction cannot produce a surface and fails. *)
Definition rejects_flat_volumes (G : Geometry) : Prop :=
  forall (m : Np.ndarray3) (spacing : Q * Q * Q),
    no_crossing m = true -> exists e, marching_cubes m (1 # 2) spacing = Raise e.

(** Modelled from the spec: [trimesh.Trimesh.centroid] is not part of the
    repository; whichever centroid the mesh representation uses, it is a
    point of the mesh that moves with it. *)
Definition centroid_follows_translation (G : Geometry) : Prop :=
  forall (mesh : Trimesh) (t : V3),
    vertices mesh <> [] ->
    v3_eq (centroid (apply_translation t mesh)) (v3_add (centroid mesh) t).

(** Line 116 (line 125 of the second file): the mesh moved by the negation
    of its centroid. *)
Definition centred `{G : Geometry} (mesh : Trimesh) : Trimesh :=
  apply_translation (v3_opp (centroid mesh)) mesh.

(** ** A reference geometry

    One instance of [Geometry], on which the pipeline can be run: the
    even-odd ray-casting rule for polygons, a point cloud in place of the
    triangulated surface, and the vertex mean as the centroid. *)

Module Reference.

(** The ray from [pt] towards increasing x crosses the edge from [a] to [b]. *)
Definition crosses (pt a b : Q * Q) : bool :=
  let '(x, y) := pt in
  xorb (Np.Qlt_bool y (snd a)) (Np.Qlt_bool y (snd b))
  && Np.Qlt_bool x (fst a + (y - snd a) * (fst b - fst a) / (snd b - snd a))%Q.

Fixpoint crossings (pt first prev : Q * Q) (rest : list (Q * Q)) : bool :=
  match rest with
  | [] => crosses pt prev first
  | v :: rest' => xorb (crosses pt prev v) (crossings pt first v rest')
  end.

Definition even_odd (poly : list (Q * Q)) (pt : Q * Q) : bool :=
  match poly with
  | a :: b :: c :: rest => crossings pt a a (b :: c :: rest)
  | _ => false
  end.

Definition voxel_points (m : Np.ndarray3) (spacing : Q * Q * Q) : list V3 :=
  concat (imap (fun k plane =>
    concat (imap (fun r row =>
      concat (imap (fun c v =>
        if (1 <=? v)%Z
        then [(Q_of_nat k * px spacing, Q_of_nat r * py spacing, Q_of_nat c * pz spacing)%Q]
        else []) row)) plane)) (Np.planes m)).

Definition point_cloud (m : Np.ndarray3) (level : Q) (spacing : Q * Q * Q) : result Surface :=
  if no_crossing m
  then Raise (LibraryError "Surface level must be within volume data range.")
  else Ok (voxel_points m spacing, [], [], []).

Definition v3_sum (l : list V3) : V3 := foldr v3_add (0, 0, 0)%Q l.

Definition vertex_mean (mesh : Trimesh) : V3 :=
  let s := v3_sum (vertices mesh) in
  let n := Q_of_nat (length (vertices mesh)) in
  (px s / n, py s / n, pz s / n)%Q.

Definition geometry : Geometry := {|
  contains_point := even_odd;
  marching_cubes := point_cloud;
  Trimesh_init := mk_Trimesh;
  centroid := vertex_mean
|}.

End Reference.

(** ** Sample inputs *)

Module Sample.

Definition ct (z : Q) : CTSlice := mk_CTSlice (0, 0, z)%Q (1, 1)%Q 4 4.

Definition folder : Folder :=
  [("b.dcm", ct 5); ("notes.txt", ct 9); ("a.dcm", ct 0); ("c.dcm", ct 10)]%Q.

(** The square with corners (0.5, 0.5) and (2.5, 2.5) at z = 4. *)
Definition square : Contour :=
  mk_Contour [1 # 2; 1 # 2; 4; 5 # 2; 1 # 2; 4; 5 # 2; 5 # 2; 4; 1 # 2; 5 # 2; 4]%Q.

(** The square with corners (1.5, 1.5) and (3.5, 3.5) at z = 6. *)
Definition shifted : Contour :=
  mk_Contour [3 # 2; 3 # 2; 6; 7 # 2; 3 # 2; 6; 7 # 2; 7 # 2; 6; 3 # 2; 7 # 2; 6]%Q.

Definition rtstruct : RTStruct :=
  mk_RTStruct [mk_ROI "Body" 1; mk_ROI "BolusECT_v9" 2]
              [mk_ROIContour 1 []; mk_ROIContour 2 [square; shifted]].

(** The volume extracted for the structure of the two squares. *)
Definition mask : Np.ndarray3 :=
  Eval vm_compute in
    match Stl.extract_structure_mask (G := Reference.geometry) rtstruct folder "BolusECT_v9" with
    | Ok (m, _, _) => m
    | Raise _ => Np.zeros (0, 0, 0)
    end.

End Sample.

(** ** The callers

    What the callers read from disk is outside the repository:
    [pydicom.dcmread] of the RTSTRUCT path, [os.listdir] of the CT folder
    with [pydicom.dcmread] of its entries, and the text [str(e)] of an
    exception whose message a library wrote. *)

Class Runtime : Type := {
  (** [pydicom.dcmread(rtstruct_path)] *)
  dcmread : string -> result RTStruct;
  (** [os.listdir(ct_folder)], every entry with what [pydicom.dcmread]
      returns for it; it is evaluated at line 59, first thing in
      [extract_structure_mask] *)
  listdir : string -> result Folder;
  (** [str(e)] for [IndexError] and the [ValueError] of numpy *)
  library_text : exn -> string
}.

(** [load_rtstruct], the same in both files. *)
Definition load_rtstruct `{R : Runtime} (rtstruct_path : string) : result RTStruct :=
  dcmread rtstruct_path.

(** [str(e)] *)
Definition str_exn `{R : Runtime} (e : exn) : string :=
  match e with
  | ValueError msg => msg
  | LibraryError msg => msg
  | _ => library_text e
  end.

(** [str(n)] of a length. *)
Definition str_nat (n : nat) : string := NilZero.string_of_uint (Nat.to_uint n).

(** The newline character. *)
Definition newline : string := String (ascii_of_nat 10) EmptyString.

(** Python truthiness of a string. *)
Definition truthy (s : string) : bool := negb (String.eqb s "").

(** *** [main] of src/stl.py (lines 124-133) *)

Module StlMain.
Section WithRuntime.
Context `{G : Geometry} `{R : Runtime}.

Definition rtstruct_path : string := "RS.21_12_2015.FANTOMA_eletBOLUS.dcm".
Definition ct_folder : string := "pasta_tc".
Definition structure_name : string := "BolusECT_v9".
Definition output_stl : string := String.append structure_name ".stl".

Definition main (w : World) : result unit * World :=
  match rtstruct ← load_rtstruct rtstruct_path;
        folder ← listdir ct_folder;
        Stl.extract_structure_mask rtstruct folder structure_name with
  | Raise e => (Raise e, w)
  | Ok (mask, spacing, dz) => Stl.mask_to_stl mask spacing dz output_stl w
  end.

End WithRuntime.
End StlMain.

(** *** The interface of src/stlComInterface.py (lines 131-199) *)

Module Gui.

Inductive text_state : Type := normal | disabled.

(** A Tk text widget: its content and its state; while it is disabled,
    [insert] changes nothing. *)
Record Text : Type := mk_Text {
  content : string;
  state : text_state
}.

Definition config_state (st : text_state) (t : Text) : Text := mk_Text (content t) st.

(** [t.insert(tk.END, s)] *)
Definition insert_end (s : string) (t : Text) : Text :=
  match state t with
  | normal => mk_Text (String.append (content t) s) normal
  | disabled => t
  end.

(** A message box that was shown: its title and its message. *)
Inductive box : Type :=
| showinfo (title message : string)
| showerror (title message : string).

(** The widgets the functions read and write, and the message boxes shown so
    far, oldest first. *)
Record Widgets : Type := mk_Widgets {
  entry_rt : string;
  entry_ct : string;
  entry_out : string;
  combo_values : list string;
  combo_struct : string;
  text_log : Text;
  boxes : list box
}.

Definition set_entry_rt (v : string) (g : Widgets) : Widgets :=
  mk_Widgets v (entry_ct g) (entry_out g) (combo_values g) (combo_struct g) (text_log g) (boxes g).
Definition set_entry_ct (v : string) (g : Widgets) : Widgets :=
  mk_Widgets (entry_rt g) v (entry_out g) (combo_values g) (combo_struct g) (text_log g) (boxes g).
Definition set_entry_out (v : string) (g : Widgets) : Widgets :=
  mk_Widgets (entry_rt g) (entry_ct g) v (combo_values g) (combo_struct g) (text_log g) (boxes g).
Definition set_combo (values : list string) (selection : string) (g : Widgets) : Widgets :=
  mk_Widgets (entry_rt g) (entry_ct g) (entry_out g) values selection (text_log g) (boxes g).
Definition set_text_log (t : Text) (g : Widgets) : Widgets :=
  mk_Widgets (entry_rt g) (entry_ct g) (entry_out g) (combo_values g) (combo_struct g) t (boxes g).
Definition show (b : box) (g : Widgets) : Widgets :=
  mk_Widgets (entry_rt g) (entry_ct g) (entry_out g) (combo_values g) (combo_struct g)
             (text_log g) (boxes g ++ [b]).

(** Lines 131-136. *)
Definition log (msg : string) (g : Widgets) : Widgets :=
  let t := config_state normal (text_log g) in
  let t := insert_end (String.append msg newline) t in
  let t := config_state disabled t in
  set_text_log t g.

(** Lines 139-144; [path] is what the file dialog returns, empty when it is
    cancelled. *)
Definition select_rt (path : string) (g : Widgets) : Widgets :=
  if truthy path then set_entry_rt path g else g.

(** Lines 147-152. *)
Definition select_ct_folder (folder : string) (g : Widgets) : Widgets :=
  if truthy folder then set_entry_ct folder g else g.

(** Lines 155-160. *)
Definition select_output (path : string) (g : Widgets) : Widgets :=
  if truthy path then set_entry_out path g else g.

Section WithRuntime.
Context `{G : Geometry} `{R : Runtime}.

(** Lines 163-172. *)
Definition load_structures (g : Widgets) : Widgets :=
  match load_rtstruct (entry_rt g) with
  | Ok rt =>
      let names := StlComInterface.get_structure_names rt in
      let g := set_combo names (match names with n :: _ => n | [] => "" end) g in
      log (String.append "Estruturas carregadas ("
             (String.append (str_nat (length names)) " encontradas)")) g
  | Raise e => log (String.append "Erro ao ler RTSTRUCT: " (str_exn e)) g
  end.

(** Lines 183-196: the body of the [try]. *)
Definition process_body (g : Widgets) (w : World) : result unit * Widgets * World :=
  let rt_path := entry_rt g in
  let ct_folder := entry_ct g in
  let struct_name := combo_struct g in
  let out_path := entry_out g in
  if negb (forallb truthy [rt_path; ct_folder; struct_name; out_path])
  then (Raise (ValueError "Preencha todos os campos antes de executar."), g, w)
  else
    let g := log "Processando..." g in
    match rt ← load_rtstruct rt_path;
          folder ← listdir ct_folder;
          StlComInterface.extract_structure_mask rt folder struct_name with
    | Raise e => (Raise e, g, w)
    | Ok (mask, spacing, dz) =>
        match StlComInterface.mask_to_stl mask spacing dz out_path w with
        | (Raise e, w) => (Raise e, g, w)
        | (Ok _, w) =>
            let g := log (String.append "STL gerado com sucesso: " out_path) g in
            let g := show (showinfo "Concluído"
                             (String.append "STL salvo em:" (String.append newline out_path))) g in
            (Ok tt, g, w)
        end
    end.

(** Lines 180-199: every exception of the body is caught, logged and shown. *)
Definition process (g : Widgets) (w : World) : Widgets * World :=
  match process_body g w with
  | (Ok _, g, w) => (g, w)
  | (Raise e, g, w) =>
      let g := log (String.append "Erro: " (str_exn e)) g in
      (show (showerror "Erro" (str_exn e)) g, w)
  end.

End WithRuntime.
End Gui.

(** ** Further notions used by the properties *)

(** The volume has [n] planes of [rows] rows of [cols] cells, each 0 or 1,
    and its recorded shape says so. *)
Definition binary_volume (n rows cols : nat) (m : Np.ndarray3) : Prop :=
  Np.shape3 m = (n, rows, cols) /\
  length (Np.planes m) = n /\
  Forall (fun plane =>
            length plane = rows /\
            Forall (fun row => length row = cols /\ Forall (fun v => v = 0%Z \/ v = 1%Z) row)
                   plane)
         (Np.planes m).

(** The contour data is a positive number of complete (x, y, z) triples. *)
Definition complete_points (contour : Contour) : Prop :=
  ContourData contour <> [] /\ (length (ContourData contour) mod 3 = 0)%nat.

(** No two slices of the list are at the same position. *)
Inductive distinct_positions : list CTSlice -> Prop :=
| distinct_nil : distinct_positions []
| distinct_cons (s : CTSlice) (l : list CTSlice) :
    Forall (fun s' => ~ (pz (ImagePositionPatient s) == pz (ImagePositionPatient s'))%Q) l ->
    distinct_positions l ->
    distinct_positions (s :: l).

(** A reference runtime: one RTSTRUCT file and one CT folder. *)
Module SampleDisk.

Definition runtime : Runtime := {|
  dcmread := fun path =>
    if String.eqb path "RS.21_12_2015.FANTOMA_eletBOLUS.dcm" then Ok Sample.rtstruct
    else Raise (LibraryError "No such file or directory");
  listdir := fun path =>
    if String.eqb path "pasta_tc" then Ok Sample.folder
    else Raise (LibraryError "No such file or directory");
  library_text := fun e =>
    match e with
    | IndexError => "list index out of range"
    | _ => "cannot reshape array"
    end
|}.

Definition widgets : Gui.Widgets :=
  Gui.mk_Widgets "RS.21_12_2015.FANTOMA_eletBOLUS.dcm" "pasta_tc" "out.stl" [] ""
                 (Gui.mk_Text "" Gui.disabled) [].

End SampleDisk.

(** * Properties *)

(** ** The sort *)

Section SortFacts.
Context {A : Type} (key : A -> Q).

Local Abbreviation key_le := (Py.key_le key).

Lemma insert_by_perm (x : A) (l : list A) : Permutation (x :: l) (Py.insert_by key x l).
Proof.
  induction l as [|y l IH]; simpl; [reflexivity|].
  destruct (Qle_bool (key x) (key y)); [reflexivity|].
  rewrite perm_swap. now apply perm_skip.
Qed.

Lemma sort_by_perm (l : list A) : Permutation l (Py.sort_by key l).
Proof.
  induction l as [|x l IH]; simpl; [reflexivity|].
  rewrite <- insert_by_perm. now apply perm_skip.
Qed.

Lemma sort_by_length (l : list A) : length (Py.sort_by key l) = length l.
Proof. symmetry. apply Permutation_length, sort_by_perm. Qed.

Lemma insert_by_hd (x y : A) (l : list A) :
  key_le y x -> HdRel key_le y l -> HdRel key_le y (Py.insert_by key x l).
Proof.
  intros Hyx Hl. destruct l as [|z l]; simpl; [now constructor|].
  destruct (Qle_bool (key x) (key z)); constructor; trivial.
  now inversion Hl.
Qed.

Lemma insert_by_sorted (x : A) (l : list A) :
  Sorted key_le l -> Sorted key_le (Py.insert_by key x l).
Proof.
  induction 1 as [|y l Hs IH Hhd]; simpl.
  - repeat constructor.
  - destruct (Qle_bool (key x) (key y)) eqn:E.
    + apply Qle_bool_iff in E. repeat constructor; trivial.
    + assert (key_le y x).
      { unfold key_le. destruct (Qlt_le_dec (key y) (key x)) as [Hlt|Hle].
        - now apply Qlt_le_weak.
        - apply Qle_bool_iff in Hle. congruence. }
      constructor; [exact IH | now apply insert_by_hd].
Qed.

Lemma sort_by_sorted (l : list A) : Sorted key_le (Py.sort_by key l).
Proof.
  induction l as [|x l IH]; simpl; [constructor | now apply insert_by_sorted].
Qed.

Lemma sorted_keys (l : list A) : Sorted key_le l -> Sorted Qle (map key l).
Proof.
  induction 1 as [|y l Hs IH Hhd]; simpl; constructor; trivial.
  destruct Hhd; simpl; now constructor.
Qed.
End SortFacts.

(** The first two elements of a list with at least two. *)
Lemma two_or_more {A : Type} (l : list A) :
  2 <= length l -> exists a b rest, l = a :: b :: rest.
Proof.
  destruct l as [|a [|b rest]]; simpl; intros H; try lia. eauto.
Qed.

Lemma fewer_than_two {A : Type} (l : list A) :
  length l < 2 -> l = [] \/ exists a, l = [a].
Proof.
  destruct l as [|a [|b rest]]; simpl; intros H; try lia; eauto.
Qed.

Lemma sorted_slices_length (ct_folder : Folder) :
  length (sorted_slices ct_folder) = length (read_slices ct_folder).
Proof. apply sort_by_length. Qed.

(** ** The slice stack *)

Lemma stl_slice_stack_short (ct_folder : Folder) :
  length (read_slices ct_folder) < 2 -> Stl.slice_stack ct_folder = Raise IndexError.
Proof.
  intros H. rewrite <- sorted_slices_length in H. unfold Stl.slice_stack.
  fold (sorted_slices ct_folder).
  destruct (fewer_than_two _ H) as [-> | [a ->]]; reflexivity.
Qed.

(** With two slices or more the stack is built from the first two sorted
    slices. *)
Lemma slice_stack_two (ct_folder : Folder) :
  2 <= length (read_slices ct_folder) ->
  exists s0 s1 rest,
    sorted_slices ct_folder = s0 :: s1 :: rest /\
    Stl.slice_stack ct_folder
    = Ok (s0 :: s1 :: rest,
          map (fun s => pz (ImagePositionPatient s)) (s0 :: s1 :: rest),
          PixelSpacing s0,
          Qabs (pz (ImagePositionPatient s1) - pz (ImagePositionPatient s0))).
Proof.
  intros H. rewrite <- sorted_slices_length in H. unfold Stl.slice_stack.
  fold (sorted_slices ct_folder).
  destruct (two_or_more _ H) as (a & b & rest & ->). eauto 6.
Qed.

(** C6.  When the folder supplies fewer than two [.dcm] slices, extraction
    fails in both files with the [IndexError] of indexing the slice list,
    which is how the code signals insufficient data, whatever the structure
    set and the name are. *)
Theorem extract_insufficient_slices `{G : Geometry}
    (rtstruct : RTStruct) (ct_folder : Folder) (structure_name : string) :
  length (read_slices ct_folder) < 2 ->
  Stl.extract_structure_mask rtstruct ct_folder structure_name = Raise IndexError /\
  StlComInterface.extract_structure_mask rtstruct ct_folder structure_name = Raise IndexError.
Proof.
  intros H. split.
  - unfold Stl.extract_structure_mask. now rewrite stl_slice_stack_short.
  - rewrite <- sorted_slices_length in H. unfold StlComInterface.extract_structure_mask.
    fold (sorted_slices ct_folder).
    destruct (fewer_than_two _ H) as [-> | [a ->]]; reflexivity.
Qed.

Lemma extract_insufficient_slices_witness :
  length (read_slices [("a.dcm", Sample.ct 0); ("readme.md", Sample.ct 1)]) < 2 /\
  Stl.extract_structure_mask (G := Reference.geometry) Sample.rtstruct
    [("a.dcm", Sample.ct 0); ("readme.md", Sample.ct 1)] "Body" = Raise IndexError.
Proof.
  split; [vm_compute; lia|].
  apply (extract_insufficient_slices (G := Reference.geometry)). vm_compute; lia.
Defined.

Lemma Qabs_diff_pos (a b : Q) : (a <= b -> (0 < Qabs (b - a) <-> ~ a == b))%Q.
Proof.
  intros Hab. rewrite Qabs_pos by lra. split; intros H; lra.
Qed.

(** C7, as the code has it.  With at least two slices the slice stack is
    built, the slices are a permutation of the ones read, the position array
    is sorted ascending, and the inter-slice spacing is the difference of
    the two lowest positions: it is never negative, and it is positive
    exactly when those two positions differ. *)
Theorem slice_stack_sorted_spacing (ct_folder : Folder) :
  2 <= length (read_slices ct_folder) ->
  exists slices z0 z1 rest pixel_spacing slice_thickness,
    Stl.slice_stack ct_folder
      = Ok (slices, z0 :: z1 :: rest, pixel_spacing, slice_thickness) /\
    Permutation (read_slices ct_folder) slices /\
    z0 :: z1 :: rest = map (fun s => pz (ImagePositionPatient s)) slices /\
    Sorted Qle (z0 :: z1 :: rest) /\
    (slice_thickness == z1 - z0)%Q /\
    (0 <= slice_thickness)%Q /\
    ((0 < slice_thickness)%Q <-> ~ (z0 == z1)%Q).
Proof.
  intros H.
  pose proof (sort_by_perm (fun s => pz (ImagePositionPatient s)) (read_slices ct_folder)) as Hperm.
  pose proof (sort_by_sorted (fun s => pz (ImagePositionPatient s)) (read_slices ct_folder)) as Hsort.
  apply sorted_keys in Hsort. fold (sorted_slices ct_folder) in *.
  destruct (slice_stack_two _ H) as (a & b & rest & E & Hstack). rewrite E in *. simpl in *.
  assert (Hle : (pz (ImagePositionPatient a) <= pz (ImagePositionPatient b))%Q).
  { inversion Hsort as [|? ? ? Hhd]; subst. now inversion Hhd. }
  eexists _, _, _, _, _, _. split; [exact Hstack|].
  repeat split; trivial.
  - apply Qabs_pos. lra.
  - apply Qabs_nonneg.
  - now apply Qabs_diff_pos.
  - now apply Qabs_diff_pos.
Qed.

Lemma slice_stack_sorted_spacing_witness :
  exists slices z0 z1 rest pixel_spacing slice_thickness,
    Stl.slice_stack Sample.folder
      = Ok (slices, z0 :: z1 :: rest, pixel_spacing, slice_thickness) /\
    Permutation (read_slices Sample.folder) slices /\
    z0 :: z1 :: rest = map (fun s => pz (ImagePositionPatient s)) slices /\
    Sorted Qle (z0 :: z1 :: rest) /\
    (slice_thickness == z1 - z0)%Q /\
    (0 <= slice_thickness)%Q /\
    ((0 < slice_thickness)%Q <-> ~ (z0 == z1)%Q).
Proof.
  apply (slice_stack_sorted_spacing Sample.folder). vm_compute. lia.
Defined.

(** Two slices at the same position: the stack is built and the spacing is
    zero, so a positive spacing is not guaranteed. *)
Lemma slice_spacing_not_positive :
  ~ (forall ct_folder : Folder,
       2 <= length (read_slices ct_folder) ->
       forall slices z_positions pixel_spacing slice_thickness,
         Stl.slice_stack ct_folder = Ok (slices, z_positions, pixel_spacing, slice_thickness) ->
         Sorted Qle z_positions /\ (0 < slice_thickness)%Q).
Proof.
  intros H.
  destruct (H [("a.dcm", Sample.ct 3); ("b.dcm", Sample.ct 3)] ltac:(vm_compute; lia)
              _ _ _ _ eq_refl) as [_ Hpos].
  vm_compute in Hpos. discriminate.
Qed.

(** ** Nearest-slice assignment *)

Lemma Qlt_bool_iff (x y : Q) : Np.Qlt_bool x y = true <-> (x < y)%Q.
Proof.
  unfold Np.Qlt_bool. rewrite negb_true_iff, <- not_true_iff_false, Qle_bool_iff.
  split; [apply Qnot_le_lt | apply Qlt_not_le].
Qed.

Lemma Qlt_bool_false (x y : Q) : Np.Qlt_bool x y = false -> (y <= x)%Q.
Proof.
  unfold Np.Qlt_bool. rewrite negb_false_iff. apply Qle_bool_iff.
Qed.

Lemma argmin_from_spec (l : list Q) :
  forall (pre : list Q) (best_i : nat) (best : Q),
    first_minimum pre best_i best ->
    exists m, first_minimum (pre ++ l) (Np.argmin_from best_i best (length pre) l) m.
Proof.
  induction l as [|x l IH]; intros pre bi b (Hb & Hmin & Hfirst); simpl.
  - exists b. now rewrite app_nil_r.
  - replace (pre ++ x :: l) with ((pre ++ [x]) ++ l) by now rewrite <- app_assoc.
    replace (S (length pre)) with (length (pre ++ [x])) by (rewrite length_app; simpl; lia).
    destruct (Np.Qlt_bool x b) eqn:E.
    + apply Qlt_bool_iff in E. apply IH. repeat split.
      * now rewrite lookup_app_r, Nat.sub_diag.
      * intros k y Hk. apply lookup_app_Some in Hk as [Hk | [_ Hk]].
        -- apply Hmin in Hk. lra.
        -- apply list_lookup_singleton_Some in Hk as [_ <-]. lra.
      * intros k y Hlt Hk. rewrite lookup_app_l in Hk by trivial.
        apply Hmin in Hk. lra.
    + apply Qlt_bool_false in E. apply IH. repeat split.
      * rewrite lookup_app_l; trivial. now apply lookup_lt_Some in Hb.
      * intros k y Hk. apply lookup_app_Some in Hk as [Hk | [_ Hk]].
        -- now apply Hmin in Hk.
        -- now apply list_lookup_singleton_Some in Hk as [_ <-].
      * intros k y Hlt Hk. apply lookup_lt_Some in Hb as Hbi.
        rewrite lookup_app_l in Hk by lia. now apply (Hfirst k).
Qed.

Lemma argmin_spec (l : list Q) :
  l <> [] -> exists j m, Np.argmin l = Ok j /\ first_minimum l j m.
Proof.
  destruct l as [|x l]; [congruence|]. intros _. simpl.
  destruct (argmin_from_spec l [x] 0 x) as (m & Hm).
  - repeat split; simpl.
    + intros [|k] y Hk; simpl in Hk; [injection Hk as <-; lra | discriminate].
    + intros k y Hk. lia.
  - eauto.
Qed.

Lemma contour_slice_first_minimum (z_positions : list Q) (contour : Contour)
    (p : Q * Q * Q) (pts : list (Q * Q * Q)) :
  z_positions <> [] ->
  Np.reshape3 (ContourData contour) = Ok (p :: pts) ->
  exists i m,
    Stl.contour_slice z_positions contour = Ok (p :: pts, i) /\
    first_minimum (map (fun q => Qabs (q - pz p)) z_positions) i m.
Proof.
  intros Hne Hpts.
  destruct (argmin_spec (map (fun q => Qabs (q - pz p)) z_positions)) as (j & m & Hj & Hmin).
  { destruct z_positions; [congruence | discriminate]. }
  exists j, m. split; [|exact Hmin].
  unfold Stl.contour_slice. rewrite Hpts.
  destruct p as [[x y] z]. simpl in *. now rewrite Hj.
Qed.

(** C3.  A contour with at least one point is assigned, in both files, to
    the first index whose slice position is nearest to the z coordinate of
    its first point; with a non-empty position array this never fails,
    whatever the distance is. *)
Theorem contour_slice_nearest (z_positions : list Q) (contour : Contour)
    (p : Q * Q * Q) (pts : list (Q * Q * Q)) :
  z_positions <> [] ->
  Np.reshape3 (ContourData contour) = Ok (p :: pts) ->
  exists i zi,
    Stl.contour_slice z_positions contour = Ok (p :: pts, i) /\
    StlComInterface.contour_slice z_positions contour = Ok (p :: pts, i) /\
    z_positions !! i = Some zi /\
    (forall k zk, z_positions !! k = Some zk -> (Qabs (zi - pz p) <= Qabs (zk - pz p))%Q) /\
    (forall k zk, k < i -> z_positions !! k = Some zk ->
                  (Qabs (zi - pz p) < Qabs (zk - pz p))%Q).
Proof.
  intros Hne Hpts.
  destruct (contour_slice_first_minimum _ _ _ _ Hne Hpts) as (j & m & Hj & Hat & Hmin & Hfirst).
  rewrite list_lookup_fmap in Hat.
  destruct (z_positions !! j) as [zj|] eqn:Ezj; [|discriminate].
  injection Hat as <-.
  exists j, zj. repeat split; trivial.
  - intros k zk Hk. apply (Hmin k). now rewrite list_lookup_fmap, Hk.
  - intros k zk Hlt Hk. apply (Hfirst k); trivial. now rewrite list_lookup_fmap, Hk.
Qed.

Lemma contour_slice_nearest_witness :
  exists i zi,
    Stl.contour_slice [0; 5; 10]%Q Sample.square = Ok ([(1 # 2, 1 # 2, 4); (5 # 2, 1 # 2, 4);
         (5 # 2, 5 # 2, 4); (1 # 2, 5 # 2, 4)]%Q, i) /\
    [0; 5; 10]%Q !! i = Some zi /\
    (forall k zk, [0; 5; 10]%Q !! k = Some zk -> (Qabs (zi - 4) <= Qabs (zk - 4))%Q).
Proof.
  destruct (contour_slice_nearest [0; 5; 10]%Q Sample.square (1 # 2, 1 # 2, 4)%Q
              [(5 # 2, 1 # 2, 4); (5 # 2, 5 # 2, 4); (1 # 2, 5 # 2, 4)]%Q)
    as (i & zi & H1 & _ & H2 & H3 & _).
  - discriminate.
  - reflexivity.
  - exists i, zi. repeat split; trivial.
Defined.

(** ** Which exceptions the loop over the contours can raise *)

Lemma list_ind3 {A : Type} (P : list A -> Prop) :
  P [] -> (forall x, P [x]) -> (forall x y, P [x; y]) ->
  (forall x y z l, P l -> P (x :: y :: z :: l)) ->
  forall l, P l.
Proof.
  intros H0 H1 H2 H3. fix IH 1.
  intros [|x [|y [|z l]]]; [apply H0 | apply H1 | apply H2 | apply H3, IH].
Qed.

Lemma reshape3_raise (l : list Q) (e : exn) : Np.reshape3 l = Raise e -> e = NumpyValueError.
Proof.
  induction l as [| |x y|x y z l IH] using list_ind3; simpl; try congruence.
  destruct (Np.reshape3 l); simpl; [discriminate|].
  intros [= <-]. now apply IH.
Qed.





Section Raises.
Context `{G : Geometry}.



End Raises.

(** ** Resolving the structure name *)

Lemma find_structure_index_none (rtstruct : RTStruct) (structure_name : string) :
  find_structure_index (StructureSetROISequence rtstruct) structure_name = None
  <-> no_roi_named rtstruct structure_name.
Proof.
  unfold no_roi_named. induction (StructureSetROISequence rtstruct) as [|roi rois IH]; simpl.
  - split; [constructor | reflexivity].
  - destruct (String.eqb_spec (Py.lower (ROIName roi)) (Py.lower structure_name)) as [E|E].
    + split; [discriminate|]. intros H. inversion H; subst. contradiction.
    + rewrite IH. split; [now constructor | intros H; now inversion H].
Qed.





(** ** The grid of cell centres *)

Lemma zip_const_r {A B : Type} (b : list A) (i : B) :
  zip b (map (fun _ => i) b) = map (fun j => (j, i)) b.
Proof. induction b as [|x b IH]; simpl; congruence. Qed.

Lemma meshgrid_points (a b : list nat) :
  Np.vstack_T (Np.flatten (snd (Np.meshgrid_ij a b))) (Np.flatten (fst (Np.meshgrid_ij a b)))
  = concat (map (fun i => map (fun j => (j, i)) b) a).
Proof.
  unfold Np.vstack_T, Np.flatten. simpl.
  induction a as [|i a IH]; simpl; [reflexivity|].
  rewrite zip_with_app by now rewrite length_map.
  now rewrite IH, zip_const_r.
Qed.

Lemma grid_coords_rows (rows cols : nat) :
  grid_coords rows cols
  = concat (map (fun r => map (fun c => (Q_of_nat c, Q_of_nat r)) (seq 0 cols)) (seq 0 rows)).
Proof.
  unfold grid_coords.
  pose proof (meshgrid_points (Np.arange rows) (Np.arange cols)) as H.
  destruct (Np.meshgrid_ij _ _) as [rr cc]. simpl in H. rewrite H.
  rewrite concat_map, map_map. f_equal. apply map_ext. intros r.
  now rewrite map_map.
Qed.

Lemma chunks_concat {A : Type} (c : nat) (ls : list (list A)) :
  Forall (fun l => length l = c) ls -> Np.chunks (length ls) c (concat ls) = ls.
Proof.
  induction 1 as [|l ls Hl Hls IH]; simpl; [reflexivity|].
  rewrite take_app_length', drop_app_length' by done. now rewrite IH.
Qed.

Lemma concat_rows_length {A : Type} (c : nat) (ls : list (list A)) :
  Forall (fun l => length l = c) ls -> length (concat ls) = length ls * c.
Proof.
  induction 1 as [|l ls Hl Hls IH]; simpl; [reflexivity|].
  rewrite length_app. lia.
Qed.

Lemma flag_rows_uniform (f : Q * Q -> bool) (rows cols : nat) :
  Forall (fun l => length l = cols) (flag_rows f rows cols).
Proof.
  unfold flag_rows. apply Forall_forall. intros l Hl.
  apply list_elem_of_fmap in Hl as (r & -> & _). now rewrite length_map, length_seq.
Qed.

Lemma map_grid_coords (f : Q * Q -> bool) (rows cols : nat) :
  map f (grid_coords rows cols) = concat (flag_rows f rows cols).
Proof.
  rewrite grid_coords_rows, concat_map, map_map. unfold flag_rows. f_equal.
  apply map_ext. intros r. now rewrite map_map.
Qed.

Lemma reshape2_grid (f : Q * Q -> bool) (rows cols : nat) :
  Np.reshape2 (rows, cols) (map f (grid_coords rows cols))
  = Ok (Np.mk_ndarray2 (rows, cols) (flag_rows f rows cols)).
Proof.
  unfold Np.reshape2. rewrite map_grid_coords. simpl.
  pose proof (flag_rows_uniform f rows cols) as Hu.
  assert (Hlen : length (flag_rows f rows cols) = rows).
  { unfold flag_rows. rewrite length_map. apply length_seq. }
  rewrite (concat_rows_length cols) by trivial. rewrite Hlen.
  destruct (decide _) as [_|Hne]; [|congruence].
  f_equal. f_equal. rewrite <- Hlen at 1. now apply chunks_concat.
Qed.

Lemma flag_rows_lookup (f : Q * Q -> bool) (rows cols r c : nat) :
  r < rows -> c < cols ->
  Np.getitem2 (Np.mk_ndarray2 (rows, cols) (flag_rows f rows cols)) r c
  = Some (f (Q_of_nat c, Q_of_nat r)).
Proof.
  intros Hr Hc. unfold Np.getitem2, flag_rows. simpl.
  rewrite list_lookup_fmap, lookup_seq_lt by trivial. simpl.
  now rewrite list_lookup_fmap, lookup_seq_lt.
Qed.

(** ** Painting the contours into the volume *)

Lemma foldM_app {A B : Type} (f : B -> A -> result B) (l1 l2 : list A) (b : B) :
  foldM f b (l1 ++ l2) = (b' ← foldM f b l1; foldM f b' l2).
Proof.
  revert b. induction l1 as [|a l1 IH]; intros b; simpl; [reflexivity|].
  destruct (f b a); simpl; [apply IH | reflexivity].
Qed.

Lemma zeros_cell (n rows cols k r c : nat) :
  k < n -> r < rows -> c < cols -> Np.cell (Np.zeros (n, rows, cols)) k r c = Some 0%Z.
Proof.
  intros Hk Hr Hc. unfold Np.cell, Np.zeros. simpl.
  rewrite lookup_replicate_2 by trivial. simpl.
  rewrite lookup_replicate_2 by trivial. simpl.
  now rewrite lookup_replicate_2.
Qed.

Lemma setitem_where_shape (m m' : Np.ndarray3) (idx : nat) (b : Np.ndarray2 bool) (v : Z) :
  Np.setitem_where m idx b v = Ok m' -> Np.shape3 m' = Np.shape3 m.
Proof.
  unfold Np.setitem_where. destruct (_ !! _); [destruct (decide _)|]; try discriminate.
  now intros [= <-].
Qed.

Lemma setitem_where_cell (m m' : Np.ndarray3) (idx : nat) (b : Np.ndarray2 bool) (v : Z)
    (k r c : nat) (old : Z) (flag : bool) :
  Np.setitem_where m idx b v = Ok m' ->
  Np.cell m k r c = Some old ->
  Np.getitem2 b r c = Some flag ->
  Np.cell m' k r c = Some (if (idx =? k)%nat && flag then v else old).
Proof.
  unfold Np.setitem_where, Np.cell, Np.getitem2.
  destruct (Np.planes m !! idx) as [p|] eqn:Ep; [|discriminate].
  destruct (decide _); [|discriminate]. intros [= <-]. simpl.
  destruct (Nat.eqb_spec idx k) as [->|Hne]; simpl.
  - rewrite Ep. simpl.
    rewrite list_lookup_insert_eq by (now apply lookup_lt_Some in Ep). simpl.
    rewrite lookup_zip_with.
    destruct (p !! r) as [row|]; simpl; [|discriminate].
    destruct (Np.rows2 b !! r) as [brow|]; simpl; [|discriminate].
    rewrite lookup_zip_with. intros -> ->. reflexivity.
  - rewrite list_lookup_insert_ne by trivial. now intros -> _.
Qed.

Section Painting.
Context `{G : Geometry}.
Variables (s0 : CTSlice) (pixel_spacing : Q * Q) (z_positions : list Q).

Lemma rasterize_contour_ok (contour : Contour) (slice_idx : nat) (mask_slice : Np.ndarray2 bool) :
  Stl.rasterize_contour s0 pixel_spacing z_positions contour = Ok (slice_idx, mask_slice) ->
  exists pts,
    Stl.contour_slice z_positions contour = Ok (pts, slice_idx) /\
    mask_slice = Np.mk_ndarray2 (Rows s0, Columns s0)
                   (flag_rows (contains_point (Stl.polygon s0 pixel_spacing pts))
                              (Rows s0) (Columns s0)).
Proof.
  unfold Stl.rasterize_contour.
  destruct (Stl.contour_slice _ _) as [[pts idx]|]; simpl; [|discriminate].
  unfold Stl.inside_flags. rewrite reshape2_grid. simpl. intros [= <- <-]. eauto.
Qed.

Lemma paint_contour_shape (mask mask' : Np.ndarray3) (contour : Contour) :
  Stl.paint_contour s0 pixel_spacing z_positions mask contour = Ok mask' ->
  Np.shape3 mask' = Np.shape3 mask.
Proof.
  unfold Stl.paint_contour.
  destruct (Stl.rasterize_contour _ _ _ _) as [[idx ms]|]; simpl; [|discriminate].
  apply setitem_where_shape.
Qed.

Lemma paint_contour_cell (mask mask' : Np.ndarray3) (contour : Contour) (k r c : nat) (old : Z) :
  Stl.paint_contour s0 pixel_spacing z_positions mask contour = Ok mask' ->
  r < Rows s0 -> c < Columns s0 ->
  Np.cell mask k r c = Some old ->
  Np.cell mask' k r c
  = Some (if covers s0 pixel_spacing z_positions contour k r c then 1%Z else old).
Proof.
  unfold Stl.paint_contour, covers.
  destruct (Stl.rasterize_contour _ _ _ _) as [[idx ms]|] eqn:E; simpl; [|discriminate].
  intros Hset Hr Hc Hold.
  apply rasterize_contour_ok in E as (pts & _ & ->).
  rewrite flag_rows_lookup by trivial. simpl.
  eapply setitem_where_cell; eauto. now apply flag_rows_lookup.
Qed.

Lemma paint_contours_cell (contours : list Contour) :
  forall (mask mask' : Np.ndarray3) (k r c : nat) (old : Z),
    foldM (Stl.paint_contour s0 pixel_spacing z_positions) mask contours = Ok mask' ->
    r < Rows s0 -> c < Columns s0 ->
    Np.cell mask k r c = Some old ->
    Np.cell mask' k r c
    = Some (if union_covers s0 pixel_spacing z_positions contours k r c then 1%Z else old).
Proof.
  induction contours as [|contour contours IH]; intros mask mask' k r c old; simpl.
  - now intros [= <-].
  - destruct (Stl.paint_contour _ _ _ mask contour) as [mask1|] eqn:E; simpl; [|discriminate].
    intros Hrest Hr Hc Hold.
    pose proof (paint_contour_cell _ _ _ k r c old E Hr Hc Hold) as H1.
    rewrite (IH _ _ _ _ _ _ Hrest Hr Hc H1).
    destruct (covers _ _ _ contour k r c); simpl; [|reflexivity].
    now destruct (union_covers _ _ _ contours k r c).
Qed.

Lemma paint_contours_shape (contours : list Contour) :
  forall (mask mask' : Np.ndarray3),
    foldM (Stl.paint_contour s0 pixel_spacing z_positions) mask contours = Ok mask' ->
    Np.shape3 mask' = Np.shape3 mask.
Proof.
  induction contours as [|contour contours IH]; intros mask mask'; simpl.
  - now intros [= <-].
  - destruct (Stl.paint_contour _ _ _ mask contour) as [mask1|] eqn:E; simpl; [|discriminate].
    intros Hrest. rewrite (IH _ _ Hrest). now apply paint_contour_shape in E.
Qed.

Lemma paint_structure_flat (rtstruct : RTStruct) (structure_index : Z) (mask : Np.ndarray3) :
  Stl.paint_structure s0 pixel_spacing z_positions structure_index mask
    (ROIContourSequence rtstruct)
  = foldM (Stl.paint_contour s0 pixel_spacing z_positions) mask
      (structure_contours rtstruct structure_index).
Proof.
  unfold Stl.paint_structure, structure_contours. revert mask.
  induction (ROIContourSequence rtstruct) as [|rc rcs IH]; intros mask; simpl; [reflexivity|].
  rewrite foldM_app. destruct (_ =? _)%Z; simpl; [|apply IH].
  destruct (foldM _ mask (ContourSequence rc)); simpl; [apply IH | reflexivity].
Qed.
End Painting.

(** C4.  When extraction succeeds, every cell of the volume is 1 exactly
    when some contour of the structure, rasterized on its own, is assigned
    to that slice and covers the cell, and 0 otherwise: the slice is the
    logical OR of the individual contour masks, and a cell covered by one
    contour stays occupied whatever the other contours are. *)
Theorem mask_is_union_of_contours `{G : Geometry}
    (rtstruct : RTStruct) (ct_folder : Folder) (structure_name : string)
    (mask : Np.ndarray3) (pixel_spacing : Q * Q) (slice_thickness : Q) :
  Stl.extract_structure_mask rtstruct ct_folder structure_name
    = Ok (mask, pixel_spacing, slice_thickness) ->
  exists s0 structure_index,
    let slices := sorted_slices ct_folder in
    let z_positions := map (fun s => pz (ImagePositionPatient s)) slices in
    let contours := structure_contours rtstruct structure_index in
    slices !! 0 = Some s0 /\
    find_structure_index (StructureSetROISequence rtstruct) structure_name
      = Some structure_index /\
    pixel_spacing = PixelSpacing s0 /\
    Np.shape3 mask = (length slices, Rows s0, Columns s0) /\
    (forall k r c, k < length slices -> r < Rows s0 -> c < Columns s0 ->
       Np.cell mask k r c
       = Some (if union_covers s0 pixel_spacing z_positions contours k r c
               then 1%Z else 0%Z)) /\
    (forall contour k r c, In contour contours ->
       k < length slices -> r < Rows s0 -> c < Columns s0 ->
       covers s0 pixel_spacing z_positions contour k r c = true ->
       Np.cell mask k r c = Some 1%Z).
Proof.
  unfold Stl.extract_structure_mask, Stl.slice_stack. fold (sorted_slices ct_folder).
  destruct (sorted_slices ct_folder) as [|s0 [|s1 slices]] eqn:Es; try discriminate.
  simpl. destruct (find_structure_index _ _) as [idx|] eqn:Ei; [|discriminate].
  rewrite paint_structure_flat.
  destruct (foldM _ _ _) as [m|] eqn:Ef; simpl; [|discriminate].
  intros [= -> <- <-].
  assert (Hcell : forall k r c,
    k < S (S (length slices)) -> r < Rows s0 -> c < Columns s0 ->
    Np.cell mask k r c
    = Some (if union_covers s0 (PixelSpacing s0)
                 (pz (ImagePositionPatient s0) :: pz (ImagePositionPatient s1)
                  :: map (fun s => pz (ImagePositionPatient s)) slices)
                 (structure_contours rtstruct idx) k r c
            then 1%Z else 0%Z)).
  { intros k r c Hk Hr Hc.
    eapply paint_contours_cell; eauto. now apply zeros_cell. }
  exists s0, idx. repeat split; trivial.
  - now apply paint_contours_shape in Ef.
  - intros contour k r c Hin Hk Hr Hc Hcov. rewrite Hcell by trivial.
    unfold union_covers.
    replace (existsb _ _) with true; [reflexivity|].
    symmetry. apply existsb_exists. eauto.
Qed.

Lemma mask_is_union_of_contours_witness :
  Stl.extract_structure_mask (G := Reference.geometry) Sample.rtstruct Sample.folder "BolusECT_v9"
    = Ok (Sample.mask, (1, 1)%Q, 5%Q) /\
  exists s0 structure_index,
    find_structure_index (StructureSetROISequence Sample.rtstruct) "BolusECT_v9"
      = Some structure_index /\
    forall k r c, k < 3 -> r < Rows s0 -> c < Columns s0 ->
      Np.cell Sample.mask k r c
      = Some (if union_covers (G := Reference.geometry) s0 (1, 1)%Q [0; 5; 10]%Q
                   (structure_contours Sample.rtstruct structure_index) k r c
              then 1%Z else 0%Z).
Proof.
  assert (E : Stl.extract_structure_mask (G := Reference.geometry) Sample.rtstruct
                Sample.folder "BolusECT_v9" = Ok (Sample.mask, (1, 1)%Q, 5%Q))
    by (vm_compute; reflexivity).
  split; [exact E|].
  destruct (mask_is_union_of_contours (G := Reference.geometry) _ _ _ _ _ _ E)
    as (s0 & idx & _ & Hi & _ & _ & Hcell & _).
  exists s0, idx. split; [exact Hi | exact Hcell].
Defined.

(** ** Degenerate contours *)

Lemma map_const_seq {A : Type} (x : A) (n start : nat) :
  map (fun _ => x) (seq start n) = replicate n x.
Proof. revert start. induction n as [|n IH]; intros start; simpl; [|rewrite IH]; reflexivity. Qed.

Lemma polygon_length (s0 : CTSlice) (pixel_spacing : Q * Q)
    (pts : list (Q * Q * Q)) :
  length (Stl.polygon s0 pixel_spacing pts) = length pts.
Proof.
  unfold Stl.polygon, Np.vstack_T. rewrite length_zip_with, !length_map. lia.
Qed.

(** C9, as the code has it.  For a contour of one or two points, a
    non-empty position array and a point-in-polygon test that puts every
    point outside a polygon of fewer than three vertices, rasterization
    succeeds and its two-dimensional mask is false everywhere: the contour
    covers no cell. *)
Theorem short_contour_empty_mask (G : Geometry) (Hdeg : degenerate_outside G)
    (s0 : CTSlice) (pixel_spacing : Q * Q) (z_positions : list Q)
    (contour : Contour) (pts : list (Q * Q * Q)) :
  z_positions <> [] ->
  Np.reshape3 (ContourData contour) = Ok pts ->
  0 < length pts < 3 ->
  exists slice_idx mask_slice,
    Stl.rasterize_contour s0 pixel_spacing z_positions contour = Ok (slice_idx, mask_slice) /\
    slice_idx < length z_positions /\
    Np.shape2 mask_slice = (Rows s0, Columns s0) /\
    Np.rows2 mask_slice = replicate (Rows s0) (replicate (Columns s0) false) /\
    (forall k r c, covers s0 pixel_spacing z_positions contour k r c = false).
Proof.
  intros Hz Hpts Hlen.
  destruct pts as [|p pts']; [simpl in Hlen; lia|].
  destruct (contour_slice_first_minimum z_positions contour p pts' Hz Hpts)
    as (i & zi & Hslice & Hi & _).
  assert (Hrows : flag_rows (contains_point (Stl.polygon s0 pixel_spacing (p :: pts')))
                    (Rows s0) (Columns s0)
                  = replicate (Rows s0) (replicate (Columns s0) false)).
  { unfold flag_rows. rewrite <- (map_const_seq _ (Rows s0) 0). apply map_ext. intros r.
    rewrite <- (map_const_seq _ (Columns s0) 0). apply map_ext. intros c.
    apply Hdeg. rewrite polygon_length. lia. }
  assert (Hras : Stl.rasterize_contour s0 pixel_spacing z_positions contour
                 = Ok (i, Np.mk_ndarray2 (Rows s0, Columns s0)
                            (replicate (Rows s0) (replicate (Columns s0) false)))).
  { unfold Stl.rasterize_contour. rewrite Hslice. simpl.
    unfold Stl.inside_flags. rewrite reshape2_grid, Hrows. reflexivity. }
  eexists _, _. split; [exact Hras|]. repeat split.
  - apply lookup_lt_Some in Hi. now rewrite length_map in Hi.
  - intros k r c. unfold covers. rewrite Hras. unfold Np.getitem2. simpl.
    destruct (replicate (Rows s0) _ !! r) as [row|] eqn:Er; simpl.
    + apply lookup_replicate in Er as [-> _].
      destruct (replicate (Columns s0) false !! c) as [b|] eqn:Ec; simpl.
      * apply lookup_replicate in Ec as [-> _]. apply andb_false_r.
      * apply andb_false_r.
    + apply andb_false_r.
Qed.

Lemma even_odd_degenerate : degenerate_outside Reference.geometry.
Proof.
  intros [|a [|b [|c poly]]] pt H; simpl in *; try reflexivity. lia.
Qed.

Lemma short_contour_empty_mask_witness :
  exists slice_idx mask_slice,
    Stl.rasterize_contour (G := Reference.geometry) (Sample.ct 0) (1, 1)%Q [0; 5; 10]%Q
      (mk_Contour [1; 1; 4; 2; 2; 4]%Q) = Ok (slice_idx, mask_slice) /\
    Np.rows2 mask_slice = replicate 4 (replicate 4 false).
Proof.
  destruct (short_contour_empty_mask Reference.geometry even_odd_degenerate
              (Sample.ct 0) (1, 1)%Q [0; 5; 10]%Q (mk_Contour [1; 1; 4; 2; 2; 4]%Q)
              [(1, 1, 4); (2, 2, 4)]%Q)
    as (i & ms & H1 & _ & _ & H2 & _).
  - discriminate.
  - reflexivity.
  - simpl. lia.
  - exists i, ms. split; [exact H1 | exact H2].
Defined.

(** A contour without points has fewer than three, and reading the z of its
    first point raises [IndexError]. *)
Lemma empty_contour_raises :
  ~ (forall (s0 : CTSlice) (pixel_spacing : Q * Q) (z_positions : list Q)
            (contour : Contour) (pts : list (Q * Q * Q)),
       z_positions <> [] ->
       Np.reshape3 (ContourData contour) = Ok pts ->
       length pts < 3 ->
       exists slice_idx mask_slice,
         Stl.rasterize_contour (G := Reference.geometry) s0 pixel_spacing z_positions contour
           = Ok (slice_idx, mask_slice)).
Proof.
  intros H.
  destruct (H (Sample.ct 0) (1, 1)%Q [0; 5; 10]%Q (mk_Contour []) [])
    as (i & ms & Hras); [discriminate | reflexivity | simpl; lia |].
  vm_compute in Hras. discriminate.
Qed.

(** ** The two entry points *)

Lemma foldM_agree {A B : Type} (I : B -> Prop) (f g : B -> A -> result B) :
  (forall b a, I b -> f b a = g b a) ->
  (forall b a b', I b -> g b a = Ok b' -> I b') ->
  forall l b, I b -> foldM f b l = foldM g b l.
Proof.
  intros Hfg Hinv. induction l as [|a l IH]; intros b Hb; simpl; [reflexivity|].
  rewrite Hfg by trivial. destruct (g b a) as [b'|] eqn:E; simpl; [|reflexivity].
  apply IH. eauto.
Qed.

Section Agreement.
Context `{G : Geometry}.
Variables (s0 : CTSlice) (pixel_spacing : Q * Q) (z_positions : list Q).

Local Abbreviation plane_is_grid := (plane_is_grid s0).

Lemma paint_contour_agree (mask : Np.ndarray3) (contour : Contour) :
  plane_is_grid mask ->
  StlComInterface.paint_contour s0 pixel_spacing z_positions mask contour
  = Stl.paint_contour s0 pixel_spacing z_positions mask contour.
Proof.
  unfold plane_is_grid. intros Hshape.
  unfold StlComInterface.paint_contour, Stl.paint_contour, Stl.rasterize_contour.
  change (StlComInterface.contour_slice z_positions contour)
    with (Stl.contour_slice z_positions contour).
  destruct (Stl.contour_slice _ _) as [[pts idx]|]; simpl; [|reflexivity].
  unfold Stl.inside_flags. fold (Stl.polygon s0 pixel_spacing pts).
  rewrite Hshape, reshape2_grid. simpl.
  unfold Py.getitem, Np.setitem_where.
  now destruct (Np.planes mask !! idx).
Qed.

Lemma plane_is_grid_preserved (mask mask' : Np.ndarray3) (contour : Contour) :
  plane_is_grid mask ->
  Stl.paint_contour s0 pixel_spacing z_positions mask contour = Ok mask' ->
  plane_is_grid mask'.
Proof.
  unfold plane_is_grid, Np.plane_shape. intros H E.
  apply paint_contour_shape in E. now rewrite E.
Qed.

Lemma paint_contours_agree (contours : list Contour) (mask : Np.ndarray3) :
  plane_is_grid mask ->
  foldM (StlComInterface.paint_contour s0 pixel_spacing z_positions) mask contours
  = foldM (Stl.paint_contour s0 pixel_spacing z_positions) mask contours.
Proof.
  apply foldM_agree.
  - intros. now apply paint_contour_agree.
  - intros. eapply plane_is_grid_preserved; eauto.
Qed.

Lemma paint_contours_grid (contours : list Contour) (mask mask' : Np.ndarray3) :
  plane_is_grid mask ->
  foldM (Stl.paint_contour s0 pixel_spacing z_positions) mask contours = Ok mask' ->
  plane_is_grid mask'.
Proof.
  unfold plane_is_grid, Np.plane_shape. intros H E.
  apply paint_contours_shape in E. now rewrite E.
Qed.
End Agreement.

Lemma extract_agree `{G : Geometry}
    (rtstruct : RTStruct) (ct_folder : Folder) (structure_name : string) :
  StlComInterface.extract_structure_mask rtstruct ct_folder structure_name
  = Stl.extract_structure_mask rtstruct ct_folder structure_name.
Proof.
  unfold StlComInterface.extract_structure_mask, Stl.extract_structure_mask, Stl.slice_stack.
  fold (sorted_slices ct_folder).
  destruct (sorted_slices ct_folder) as [|s0 [|s1 slices]]; try reflexivity.
  simpl. destruct (find_structure_index _ _) as [idx|]; [|reflexivity].
  unfold Stl.paint_structure.
  erewrite (foldM_agree (plane_is_grid s0)); [reflexivity| | |reflexivity].
  - intros mask rc Hmask. cbv beta.
    destruct (ReferencedROINumber rc =? idx)%Z; [|reflexivity].
    now apply paint_contours_agree.
  - intros mask rc mask' Hmask. cbv beta.
    destruct (ReferencedROINumber rc =? idx)%Z; [|now intros [= <-]].
    now apply paint_contours_grid.
Qed.

(** C10.  For every input the two files' [extract_structure_mask] return
    the same triple or raise the same exception, and their [mask_to_stl]
    return the same outcome and leave the same files: the same mesh under
    the same path. *)
Theorem entry_points_agree `{G : Geometry} :
  (forall rtstruct ct_folder structure_name,
     StlComInterface.extract_structure_mask rtstruct ct_folder structure_name
     = Stl.extract_structure_mask rtstruct ct_folder structure_name) /\
  (forall mask pixel_spacing slice_thickness output_path w,
     fst (StlComInterface.mask_to_stl mask pixel_spacing slice_thickness output_path w)
     = fst (Stl.mask_to_stl mask pixel_spacing slice_thickness output_path w) /\
     files (snd (StlComInterface.mask_to_stl mask pixel_spacing slice_thickness output_path w))
     = files (snd (Stl.mask_to_stl mask pixel_spacing slice_thickness output_path w))).
Proof.
  split; [intros; apply extract_agree|].
  intros mask ps dz path w.
  unfold StlComInterface.mask_to_stl, Stl.mask_to_stl, Stl.voxel_spacing.
  destruct (marching_cubes _ _ _) as [[[[verts fcs] normals] vals]|e]; simpl; auto.
Qed.

(** ** Isosurface extraction and centring *)

(** C5.  Given that marching cubes raises on a volume with no boundary at
    the level 0.5, [mask_to_stl] of both files raises that same exception on
    such a volume, and it does so before anything is exported or printed:
    the world is unchanged. *)
Theorem flat_volume_raises (G : Geometry) (Hflat : rejects_flat_volumes G)
    (mask : Np.ndarray3) (pixel_spacing : Q * Q) (slice_thickness : Q)
    (output_path : string) (w : World) :
  no_crossing mask = true ->
  exists e,
    Stl.mask_to_stl mask pixel_spacing slice_thickness output_path w = (Raise e, w) /\
    StlComInterface.mask_to_stl mask pixel_spacing slice_thickness output_path w = (Raise e, w).
Proof.
  intros Hno.
  destruct (Hflat mask (Stl.voxel_spacing pixel_spacing slice_thickness) Hno) as [e He].
  exists e. unfold Stl.mask_to_stl, StlComInterface.mask_to_stl.
  unfold Stl.voxel_spacing in *. now rewrite He.
Qed.

Lemma point_cloud_rejects_flat : rejects_flat_volumes Reference.geometry.
Proof.
  intros m spacing H. simpl. unfold Reference.point_cloud. rewrite H. eauto.
Qed.

Lemma flat_volume_raises_witness :
  exists e,
    Stl.mask_to_stl (G := Reference.geometry) (Np.zeros (2, 2, 2)) (1, 1)%Q 1%Q "out.stl"
      (mk_World [] []) = (Raise e, mk_World [] []).
Proof.
  destruct (flat_volume_raises Reference.geometry point_cloud_rejects_flat
              (Np.zeros (2, 2, 2)) (1, 1)%Q 1%Q "out.stl" (mk_World [] []))
    as (e & H & _).
  - reflexivity.
  - exists e. exact H.
Defined.

Lemma mask_to_stl_exports_centred `{G : Geometry}
    (mask : Np.ndarray3) (pixel_spacing : Q * Q) (slice_thickness : Q)
    (output_path : string) (w : World) verts fcs normals vals :
  marching_cubes mask (1 # 2) (Stl.voxel_spacing pixel_spacing slice_thickness)
    = Ok (verts, fcs, normals, vals) ->
  files (snd (Stl.mask_to_stl mask pixel_spacing slice_thickness output_path w))
  = (output_path, centred (Trimesh_init verts fcs normals)) :: files w.
Proof.
  intros H. unfold Stl.mask_to_stl. now rewrite H.
Qed.

(** C8.  Given a centroid that moves with the mesh, centring a mesh that
    has vertices moves every vertex, in place, by the negation of the
    centroid, keeps the number and order of the vertices, leaves the faces
    and the normals as they are, and puts the centroid at the origin; the
    mesh [mask_to_stl] exports is the mesh built from the marching-cubes
    output, centred this way. *)
Theorem centring_is_translation (G : Geometry) (Hc : centroid_follows_translation G)
    (mesh : Trimesh) :
  vertices mesh <> [] ->
  vertices (centred mesh) = map (fun v => v3_add v (v3_opp (centroid mesh))) (vertices mesh) /\
  length (vertices (centred mesh)) = length (vertices mesh) /\
  (forall i v, vertices mesh !! i = Some v ->
     vertices (centred mesh) !! i = Some (v3_add v (v3_opp (centroid mesh)))) /\
  faces (centred mesh) = faces mesh /\
  vertex_normals (centred mesh) = vertex_normals mesh /\
  v3_eq (centroid (centred mesh)) (0, 0, 0)%Q /\
  (forall mask pixel_spacing slice_thickness output_path w verts fcs normals vals,
     marching_cubes mask (1 # 2) (Stl.voxel_spacing pixel_spacing slice_thickness)
       = Ok (verts, fcs, normals, vals) ->
     Trimesh_init verts fcs normals = mesh ->
     files (snd (Stl.mask_to_stl mask pixel_spacing slice_thickness output_path w))
     = (output_path, centred mesh) :: files w).
Proof.
  intros Hne. unfold centred at 1 2 3 4 5. simpl. repeat split.
  - now rewrite length_map.
  - intros i v Hi. now rewrite list_lookup_fmap, Hi.
  - apply (Hc mesh (v3_opp (centroid mesh))) in Hne. unfold centred.
    destruct Hne as (Hx & Hy & Hz). unfold v3_add, v3_opp, px, py, pz in *. simpl in *. lra.
  - apply (Hc mesh (v3_opp (centroid mesh))) in Hne. unfold centred.
    destruct Hne as (Hx & Hy & Hz). unfold v3_add, v3_opp, px, py, pz in *. simpl in *. lra.
  - apply (Hc mesh (v3_opp (centroid mesh))) in Hne. unfold centred.
    destruct Hne as (Hx & Hy & Hz). unfold v3_add, v3_opp, px, py, pz in *. simpl in *. lra.
  - intros. subst mesh. eapply mask_to_stl_exports_centred; eauto.
Qed.

Lemma Q_of_nat_S (n : nat) : (Q_of_nat (S n) == Q_of_nat n + 1)%Q.
Proof.
  unfold Q_of_nat. rewrite Nat2Z.inj_succ. unfold Z.succ. now rewrite inject_Z_plus.
Qed.

Lemma Q_of_nat_pos (n : nat) : (0 < Q_of_nat (S n))%Q.
Proof.
  induction n as [|n IH]; [reflexivity|]. rewrite Q_of_nat_S. lra.
Qed.

Lemma px_add (a b : V3) : px (v3_add a b) = (px a + px b)%Q.
Proof. reflexivity. Qed.

Lemma py_add (a b : V3) : py (v3_add a b) = (py a + py b)%Q.
Proof. reflexivity. Qed.

Lemma pz_add (a b : V3) : pz (v3_add a b) = (pz a + pz b)%Q.
Proof. reflexivity. Qed.

Lemma v3_sum_cons (v : V3) (l : list V3) :
  Reference.v3_sum (v :: l) = v3_add v (Reference.v3_sum l).
Proof. reflexivity. Qed.

Lemma v3_sum_translate (t : V3) (l : list V3) :
  (px (Reference.v3_sum (map (fun v => v3_add v t) l))
     == px (Reference.v3_sum l) + Q_of_nat (length l) * px t /\
   py (Reference.v3_sum (map (fun v => v3_add v t) l))
     == py (Reference.v3_sum l) + Q_of_nat (length l) * py t /\
   pz (Reference.v3_sum (map (fun v => v3_add v t) l))
     == pz (Reference.v3_sum l) + Q_of_nat (length l) * pz t)%Q.
Proof.
  induction l as [|v l (IHx & IHy & IHz)].
  - unfold px, py, pz. simpl. repeat split; ring.
  - change (length (v :: l)) with (S (length l)).
    pose proof (Q_of_nat_S (length l)) as HS.
    rewrite map_cons, !v3_sum_cons, !px_add, !py_add, !pz_add, IHx, IHy, IHz, HS.
    repeat split; ring.
Qed.

Lemma vertex_mean_follows_translation : centroid_follows_translation Reference.geometry.
Proof.
  intros mesh t Hne. simpl. unfold Reference.vertex_mean, apply_translation. simpl.
  rewrite length_map.
  destruct (v3_sum_translate t (vertices mesh)) as (Hx & Hy & Hz).
  destruct (vertices mesh) as [|v l] eqn:E; [congruence|].
  pose proof (Q_of_nat_pos (length l)) as Hpos.
  change (length (v :: l)) with (S (length l)) in *.
  unfold v3_eq, v3_add, px, py, pz in *. simpl in *.
  repeat split; [rewrite Hx | rewrite Hy | rewrite Hz]; field; lra.
Qed.

Lemma centring_is_translation_witness :
  v3_eq (centroid (Geometry := Reference.geometry)
           (centred (G := Reference.geometry)
              (mk_Trimesh [(0, 0, 0); (2, 4, 6)]%Q [(0, 1, 1)] [])))
        (0, 0, 0)%Q.
Proof.
  apply (centring_is_translation Reference.geometry vertex_mean_follows_translation
           (mk_Trimesh [(0, 0, 0); (2, 4, 6)]%Q [(0, 1, 1)] [])).
  discriminate.
Defined.

(** ** The coordinate transform *)

Lemma polygon_coordinates (s0 : CTSlice) (pixel_spacing : Q * Q)
    (pts : list (Q * Q * Q)) :
  Stl.polygon s0 pixel_spacing pts
  = map (fun p => ((px p - px (ImagePositionPatient s0)) / fst pixel_spacing,
                   (py p - py (ImagePositionPatient s0)) / snd pixel_spacing)%Q) pts.
Proof.
  unfold Stl.polygon, Np.vstack_T. induction pts as [|p pts IH]; simpl; congruence.
Qed.

(** C2 at pixels that are not square.  With [PixelSpacing = [1, 2]] (row
    spacing 1, column spacing 2, as line 112 uses them) and the origin at 0,
    the contour point (2, 2) gets column 2 and row 1: x is divided by the
    row spacing and y by the column spacing, not col = x / 2 and
    row = y / 1 as the transform by column and row spacing gives. *)
Theorem polygon_divides_by_swapped_spacing :
  let s0 := mk_CTSlice (0, 0, 0)%Q (1, 2)%Q 4 4 in
  let pixel_spacing := PixelSpacing s0 in
  exists col row,
    Stl.polygon s0 pixel_spacing [(2, 2, 0)%Q] = [(col, row)] /\
    (col == 2 /\ row == 1)%Q /\
    (col == (2 - 0) / row_spacing pixel_spacing)%Q /\
    (row == (2 - 0) / column_spacing pixel_spacing)%Q /\
    ~ (col == (2 - 0) / column_spacing pixel_spacing)%Q /\
    ~ (row == (2 - 0) / row_spacing pixel_spacing)%Q /\
    Stl.voxel_spacing pixel_spacing 3
      = (3%Q, row_spacing pixel_spacing, column_spacing pixel_spacing).
Proof.
  simpl. eexists _, _. split; [reflexivity|].
  repeat split; try reflexivity; intros H; vm_compute in H; discriminate.
Qed.

(** * Further properties of the code *)

(** ** Contours as triples *)

Lemma reshape3_length (l : list Q) :
  forall pts, Np.reshape3 l = Ok pts -> length l = 3 * length pts.
Proof.
  induction l as [| |x y|x y z l IH] using list_ind3; simpl; intros pts; try discriminate.
  - now intros [= <-].
  - destruct (Np.reshape3 l) as [pts'|]; simpl; [|discriminate].
    intros [= <-]. simpl. rewrite (IH pts' eq_refl). lia.
Qed.

Lemma reshape3_total (l : list Q) :
  (length l mod 3 = 0)%nat -> exists pts, Np.reshape3 l = Ok pts.
Proof.
  induction l as [| |x y|x y z l IH] using list_ind3; simpl length.
  - eauto.
  - discriminate.
  - discriminate.
  - replace (S (S (S (length l)))) with (length l + 1 * 3) by lia.
    rewrite Nat.Div0.mod_add. intros H. destruct (IH H) as [pts Hpts].
    simpl. rewrite Hpts. simpl. eauto.
Qed.

Lemma complete_points_iff (contour : Contour) :
  complete_points contour
  <-> exists p pts, Np.reshape3 (ContourData contour) = Ok (p :: pts).
Proof.
  unfold complete_points. split.
  - intros [Hne Hmod]. destruct (reshape3_total _ Hmod) as [[|p pts] Hpts]; [|eauto].
    apply reshape3_length in Hpts. destruct (ContourData contour); [congruence | discriminate].
  - intros (p & pts & Hpts). pose proof (reshape3_length _ _ Hpts) as Hlen. split.
    + intros E. rewrite E in Hlen. discriminate.
    + rewrite Hlen, Nat.mul_comm. apply Nat.Div0.mod_mul.
Qed.

(** ** The volume stays a binary array of the shape of the stack *)

Lemma zeros_binary (n rows cols : nat) : binary_volume n rows cols (Np.zeros (n, rows, cols)).
Proof.
  unfold binary_volume, Np.zeros. simpl. rewrite length_replicate. repeat split.
  apply Forall_replicate. rewrite length_replicate. split; [reflexivity|].
  apply Forall_replicate. rewrite length_replicate. split; [reflexivity|].
  apply Forall_replicate. now left.
Qed.

Lemma flag_rows_length (f : Q * Q -> bool) (rows cols : nat) :
  length (flag_rows f rows cols) = rows.
Proof. unfold flag_rows. rewrite length_map. apply length_seq. Qed.

Lemma setitem_where_binary (n rows cols idx : nat) (f : Q * Q -> bool) (m : Np.ndarray3) :
  binary_volume n rows cols m ->
  idx < n ->
  exists m',
    Np.setitem_where m idx (Np.mk_ndarray2 (rows, cols) (flag_rows f rows cols)) 1 = Ok m' /\
    binary_volume n rows cols m'.
Proof.
  intros (Hshape & Hlen & Hplanes) Hidx. unfold Np.setitem_where.
  destruct (Np.planes m !! idx) as [p|] eqn:Ep.
  2:{ apply lookup_ge_None in Ep. lia. }
  unfold Np.plane_shape. rewrite Hshape. simpl.
  destruct (decide _) as [_|Hne]; [|congruence].
  eexists. split; [reflexivity|].
  unfold binary_volume. simpl. rewrite length_insert. repeat split; trivial.
  apply Forall_insert; trivial.
  rewrite Forall_lookup in Hplanes. destruct (Hplanes _ _ Ep) as [Hp Hrows].
  split.
  - rewrite length_zip_with, flag_rows_length. lia.
  - apply Forall_lookup. intros r row Hr.
    apply lookup_zip_with_Some in Hr as (old & flags & -> & Hold & Hflags).
    rewrite Forall_lookup in Hrows. destruct (Hrows _ _ Hold) as [Hc Hcells].
    pose proof (flag_rows_uniform f rows cols) as Hu.
    rewrite Forall_lookup in Hu. specialize (Hu _ _ Hflags). split.
    + rewrite length_zip_with. lia.
    + apply Forall_lookup. intros c v Hv.
      apply lookup_zip_with_Some in Hv as (o & flag & -> & Ho & _).
      rewrite Forall_lookup in Hcells. destruct flag; [now right | eauto].
Qed.

Lemma foldM_ok_Forall {A B : Type} (P : A -> Prop) (f : B -> A -> result B) :
  (forall b a b', f b a = Ok b' -> P a) ->
  forall l b b', foldM f b l = Ok b' -> Forall P l.
Proof.
  intros Hf. induction l as [|a l IH]; intros b b'; simpl; [constructor|].
  destruct (f b a) as [b1|] eqn:E; simpl; [|discriminate].
  intros H. constructor; eauto.
Qed.

Section Success.
Context `{G : Geometry}.
Variables (s0 : CTSlice) (pixel_spacing : Q * Q) (z_positions : list Q).

Local Abbreviation binary := (binary_volume (length z_positions) (Rows s0) (Columns s0)).

Lemma paint_contour_complete (mask mask' : Np.ndarray3) (contour : Contour) :
  Stl.paint_contour s0 pixel_spacing z_positions mask contour = Ok mask' ->
  complete_points contour.
Proof.
  unfold Stl.paint_contour, Stl.rasterize_contour, Stl.contour_slice. intros H.
  apply complete_points_iff.
  destruct (Np.reshape3 _) as [[|p pts]|]; simpl in H; try discriminate. eauto.
Qed.

Lemma paint_contour_succeeds (mask : Np.ndarray3) (contour : Contour) :
  z_positions <> [] ->
  binary mask ->
  complete_points contour ->
  exists mask',
    Stl.paint_contour s0 pixel_spacing z_positions mask contour = Ok mask' /\ binary mask'.
Proof.
  intros Hz Hm Hc. apply complete_points_iff in Hc as (p & pts & Hpts).
  destruct (contour_slice_first_minimum _ _ _ _ Hz Hpts) as (i & zi & Hslice & Hi & _).
  apply lookup_lt_Some in Hi. rewrite length_map in Hi.
  unfold Stl.paint_contour, Stl.rasterize_contour. rewrite Hslice. simpl.
  unfold Stl.inside_flags. rewrite reshape2_grid. simpl.
  now apply setitem_where_binary.
Qed.

Lemma paint_contours_succeed (contours : list Contour) :
  z_positions <> [] ->
  Forall complete_points contours ->
  forall mask, binary mask ->
  exists mask',
    foldM (Stl.paint_contour s0 pixel_spacing z_positions) mask contours = Ok mask' /\
    binary mask'.
Proof.
  intros Hz. induction 1 as [|contour contours Hc Hcs IH]; intros mask Hm; simpl; [eauto|].
  destruct (paint_contour_succeeds mask contour Hz Hm Hc) as (m1 & -> & Hm1). simpl.
  now apply IH.
Qed.

Lemma paint_contours_complete (contours : list Contour) (mask mask' : Np.ndarray3) :
  foldM (Stl.paint_contour s0 pixel_spacing z_positions) mask contours = Ok mask' ->
  Forall complete_points contours.
Proof.
  apply foldM_ok_Forall. intros. eapply paint_contour_complete; eauto.
Qed.

Lemma paint_contours_binary (contours : list Contour) (mask mask' : Np.ndarray3) :
  z_positions <> [] ->
  binary mask ->
  foldM (Stl.paint_contour s0 pixel_spacing z_positions) mask contours = Ok mask' ->
  binary mask'.
Proof.
  intros Hz Hm H. pose proof (paint_contours_complete _ _ _ H) as Hc.
  destruct (paint_contours_succeed _ Hz Hc _ Hm) as (m1 & E & Hm1). congruence.
Qed.
End Success.

(** What a successful extraction is made of. *)
Lemma extract_ok_inv `{G : Geometry}
    (rtstruct : RTStruct) (ct_folder : Folder) (structure_name : string)
    (mask : Np.ndarray3) (pixel_spacing : Q * Q) (slice_thickness : Q) :
  Stl.extract_structure_mask rtstruct ct_folder structure_name
    = Ok (mask, pixel_spacing, slice_thickness) ->
  exists s0 s1 rest structure_index,
    sorted_slices ct_folder = s0 :: s1 :: rest /\
    find_structure_index (StructureSetROISequence rtstruct) structure_name
      = Some structure_index /\
    pixel_spacing = PixelSpacing s0 /\
    slice_thickness = Qabs (pz (ImagePositionPatient s1) - pz (ImagePositionPatient s0)) /\
    foldM (Stl.paint_contour s0 pixel_spacing
             (map (fun s => pz (ImagePositionPatient s)) (s0 :: s1 :: rest)))
          (Np.zeros (length (s0 :: s1 :: rest), Rows s0, Columns s0))
          (structure_contours rtstruct structure_index)
    = Ok mask.
Proof.
  unfold Stl.extract_structure_mask, Stl.slice_stack. fold (sorted_slices ct_folder).
  destruct (sorted_slices ct_folder) as [|s0 [|s1 slices]] eqn:Es; try discriminate.
  simpl. destruct (find_structure_index _ _) as [idx|] eqn:Ei; [|discriminate].
  rewrite paint_structure_flat.
  destruct (foldM _ _ _) as [m|] eqn:Ef; simpl; [|discriminate].
  intros [= -> <- <-]. exists s0, s1, slices, idx. repeat split; trivial.
Qed.

(** The converse: from the parts to the result. *)
Lemma extract_ok_intro `{G : Geometry}
    (rtstruct : RTStruct) (ct_folder : Folder) (structure_name : string)
    (s0 s1 : CTSlice) (rest : list CTSlice) (structure_index : Z) :
  sorted_slices ct_folder = s0 :: s1 :: rest ->
  find_structure_index (StructureSetROISequence rtstruct) structure_name
    = Some structure_index ->
  Stl.extract_structure_mask rtstruct ct_folder structure_name
  = (mask ← foldM (Stl.paint_contour s0 (PixelSpacing s0)
                     (map (fun s => pz (ImagePositionPatient s)) (s0 :: s1 :: rest)))
                  (Np.zeros (length (s0 :: s1 :: rest), Rows s0, Columns s0))
                  (structure_contours rtstruct structure_index);
     Ok (mask, PixelSpacing s0,
         Qabs (pz (ImagePositionPatient s1) - pz (ImagePositionPatient s0)))).
Proof.
  intros Es Ei.
  unfold Stl.extract_structure_mask, Stl.slice_stack. fold (sorted_slices ct_folder).
  rewrite Es. simpl. rewrite Ei. now rewrite paint_structure_flat.
Qed.

(** ** When extraction succeeds, and how it fails *)






Lemma incomplete_contour_raises (z_positions : list Q) (contour : Contour) :
  ~ complete_points contour ->
  Stl.contour_slice z_positions contour
  = Raise (match ContourData contour with [] => IndexError | _ => NumpyValueError end).
Proof.
  intros Hbad. unfold Stl.contour_slice.
  destruct (ContourData contour) as [|x data] eqn:Ed; [reflexivity|].
  destruct (Np.reshape3 (x :: data)) as [pts|e] eqn:Er.
  - exfalso. apply Hbad. unfold complete_points. rewrite Ed. split; [discriminate|].
    apply reshape3_length in Er. rewrite Er, Nat.mul_comm. apply Nat.Div0.mod_mul.
  - apply reshape3_raise in Er as ->. reflexivity.
Qed.

(** The first contour of the structure that is not a positive number of
    complete triples aborts the extraction: an empty one with [IndexError],
    any other with the [ValueError] of numpy.  The contours after it are
    never looked at and no partial volume is returned. *)
Theorem extract_first_bad_contour `{G : Geometry}
    (rtstruct : RTStruct) (ct_folder : Folder) (structure_name : string)
    (structure_index : Z) (good : list Contour) (bad : Contour) (later : list Contour) :
  2 <= length (read_slices ct_folder) ->
  find_structure_index (StructureSetROISequence rtstruct) structure_name
    = Some structure_index ->
  structure_contours rtstruct structure_index = good ++ bad :: later ->
  Forall complete_points good ->
  ~ complete_points bad ->
  Stl.extract_structure_mask rtstruct ct_folder structure_name
  = Raise (match ContourData bad with [] => IndexError | _ => NumpyValueError end).
Proof.
  intros H2 Ei Ecs Hgood Hbad.
  destruct (slice_stack_two _ H2) as (s0 & s1 & rest & Es & _).
  rewrite (extract_ok_intro _ _ _ _ _ _ _ Es Ei), Ecs, foldM_app.
  destruct (paint_contours_succeed s0 (PixelSpacing s0)
              (map (fun s => pz (ImagePositionPatient s)) (s0 :: s1 :: rest)) good)
    with (mask := Np.zeros (length (s0 :: s1 :: rest), Rows s0, Columns s0))
    as (m & -> & _); trivial.
  - discriminate.
  - rewrite length_map. apply zeros_binary.
  - cbn [mbind result_bind foldM]. unfold Stl.paint_contour, Stl.rasterize_contour.
    rewrite incomplete_contour_raises by trivial. reflexivity.
Qed.

Lemma extract_first_bad_contour_witness :
  Stl.extract_structure_mask (G := Reference.geometry)
    (mk_RTStruct [mk_ROI "Body" 1] [mk_ROIContour 1 [Sample.square; mk_Contour [1; 2]%Q]])
    Sample.folder "body"
  = Raise NumpyValueError.
Proof.
  apply (extract_first_bad_contour (G := Reference.geometry)
           (mk_RTStruct [mk_ROI "Body" 1] [mk_ROIContour 1 [Sample.square; mk_Contour [1; 2]%Q]])
           Sample.folder "body" 1%Z [Sample.square] (mk_Contour [1; 2]%Q) []).
  - vm_compute. lia.
  - reflexivity.
  - reflexivity.
  - repeat constructor. discriminate.
  - intros [_ H]. vm_compute in H. discriminate.
Defined.

(** ** The returned volume and the reference slice *)

Lemma sort_by_head {A : Type} (key : A -> Q) (l : list A) :
  forall x rest, Py.sort_by key l = x :: rest ->
  exists before after,
    l = before ++ x :: after /\
    Forall (fun y => (key x < key y)%Q) before /\
    Forall (fun y => (key x <= key y)%Q) after.
Proof.
  induction l as [|a l IH]; simpl; intros x rest; [discriminate|].
  destruct (Py.sort_by key l) as [|y t] eqn:Es; simpl.
  - intros [= <- <-]. pose proof (sort_by_length key l) as Hl. rewrite Es in Hl.
    destruct l; [|discriminate]. exists [], []. repeat split; constructor.
  - destruct (IH y t eq_refl) as (before & after & -> & Hb & Ha).
    destruct (Qle_bool (key a) (key y)) eqn:E.
    + apply Qle_bool_iff in E. intros [= <- <-].
      exists [], (before ++ y :: after). repeat split; [constructor|].
      apply Forall_app. split; [|constructor].
      * eapply Forall_impl; [exact Hb|]. intros z Hz. simpl in Hz. lra.
      * exact E.
      * eapply Forall_impl; [exact Ha|]. intros z Hz. simpl in Hz. lra.
    + assert (Hlt : (key y < key a)%Q).
      { apply Qnot_le_lt. intros Hle. apply Qle_bool_iff in Hle. congruence. }
      intros [= <- <-]. exists (a :: before), after. repeat split; trivial.
      now constructor.
Qed.

(** The slice whose origin, pixel spacing, rows and columns the code uses,
    [slices[0]], is the first entry of the folder listing among the [.dcm]
    slices at the lowest position: the slices listed before it are strictly
    higher, the ones after it are not lower; and the spacing extraction
    returns is the [PixelSpacing] of that slice. *)
Theorem reference_slice_is_first_lowest `{G : Geometry}
    (rtstruct : RTStruct) (ct_folder : Folder) (structure_name : string)
    (mask : Np.ndarray3) (pixel_spacing : Q * Q) (slice_thickness : Q) :
  Stl.extract_structure_mask rtstruct ct_folder structure_name
    = Ok (mask, pixel_spacing, slice_thickness) ->
  exists s0 before after,
    read_slices ct_folder = before ++ s0 :: after /\
    Forall (fun s => (pz (ImagePositionPatient s0) < pz (ImagePositionPatient s))%Q) before /\
    Forall (fun s => (pz (ImagePositionPatient s0) <= pz (ImagePositionPatient s))%Q) after /\
    pixel_spacing = PixelSpacing s0 /\
    Np.shape3 mask = (length (read_slices ct_folder), Rows s0, Columns s0).
Proof.
  intros H.
  apply extract_ok_inv in H as (s0 & s1 & rest & idx & Es & _ & Hps & _ & Hf).
  destruct (sort_by_head _ _ _ _ Es) as (before & after & Hl & Hb & Ha).
  exists s0, before, after. repeat split; trivial.
  apply paint_contours_shape in Hf. rewrite Hf. simpl.
  rewrite <- sorted_slices_length, Es. reflexivity.
Qed.

Lemma reference_slice_is_first_lowest_witness :
  exists s0 before after,
    read_slices Sample.folder = before ++ s0 :: after /\
    Forall (fun s => (pz (ImagePositionPatient s0) < pz (ImagePositionPatient s))%Q) before /\
    Forall (fun s => (pz (ImagePositionPatient s0) <= pz (ImagePositionPatient s))%Q) after.
Proof.
  destruct (reference_slice_is_first_lowest (G := Reference.geometry) Sample.rtstruct
              Sample.folder "BolusECT_v9" Sample.mask (1, 1)%Q 5%Q)
    as (s0 & before & after & H1 & H2 & H3 & _).
  - vm_compute. reflexivity.
  - exists s0, before, after. repeat split; trivial.
Defined.

(** The volume a successful extraction returns has one plane per slice of
    the folder, each of [Rows] rows of [Columns] cells of the reference
    slice, its recorded shape says so, and every cell is 0 or 1. *)
Theorem extract_returns_binary_volume `{G : Geometry}
    (rtstruct : RTStruct) (ct_folder : Folder) (structure_name : string)
    (mask : Np.ndarray3) (pixel_spacing : Q * Q) (slice_thickness : Q) :
  Stl.extract_structure_mask rtstruct ct_folder structure_name
    = Ok (mask, pixel_spacing, slice_thickness) ->
  exists s0,
    sorted_slices ct_folder !! 0 = Some s0 /\
    binary_volume (length (read_slices ct_folder)) (Rows s0) (Columns s0) mask.
Proof.
  intros H.
  apply extract_ok_inv in H as (s0 & s1 & rest & idx & Es & _ & _ & _ & Hf).
  exists s0. split; [now rewrite Es|].
  rewrite <- sorted_slices_length, Es.
  replace (length (s0 :: s1 :: rest))
    with (length (map (fun s => pz (ImagePositionPatient s)) (s0 :: s1 :: rest)))
    by apply length_map.
  eapply paint_contours_binary; [discriminate| |exact Hf].
  rewrite length_map. apply zeros_binary.
Qed.

Lemma extract_returns_binary_volume_witness :
  exists s0,
    sorted_slices Sample.folder !! 0 = Some s0 /\
    binary_volume 3 (Rows s0) (Columns s0) Sample.mask.
Proof.
  apply (extract_returns_binary_volume (G := Reference.geometry) Sample.rtstruct
           Sample.folder "BolusECT_v9" Sample.mask (1, 1)%Q 5%Q).
  vm_compute. reflexivity.
Defined.

(** ** Resolving the name *)






(** ** The order of the folder listing *)

Local Abbreviation zkey := (fun s : CTSlice => pz (ImagePositionPatient s)).
Local Abbreviation z_lt := (fun a b : CTSlice => (zkey a < zkey b)%Q).

Lemma distinct_positions_perm (l l' : list CTSlice) :
  Permutation l l' -> distinct_positions l -> distinct_positions l'.
Proof.
  induction 1 as [|x l l' Hp IH|x y l|l l' l'' H1 IH1 H2 IH2]; intros Hd.
  - constructor.
  - inversion Hd as [|? ? Hx Hl]; subst. constructor; [|now apply IH].
    now rewrite <- Hp.
  - inversion Hd as [|? ? Hy Hxl]; subst. inversion Hxl as [|? ? Hx Hl]; subst.
    apply Forall_cons in Hy as [Hyx Hy].
    repeat constructor; trivial. intros E. apply Hyx. now symmetry.
  - auto.
Qed.

Lemma insert_by_strict (x : CTSlice) (l : list CTSlice) :
  StronglySorted z_lt l ->
  Forall (fun y => ~ (zkey x == zkey y)%Q) l ->
  StronglySorted z_lt (Py.insert_by zkey x l).
Proof.
  induction 1 as [|y l Hs IH Hy]; intros Hx; simpl.
  - repeat constructor.
  - apply Forall_cons in Hx as [Hxy Hx].
    destruct (Qle_bool (zkey x) (zkey y)) eqn:E.
    + apply Qle_bool_iff in E.
      assert (Hlt : (zkey x < zkey y)%Q).
      { apply Qle_lt_or_eq in E as [E | E]; [exact E | contradiction]. }
      constructor; [now constructor|]. constructor; [exact Hlt|].
      eapply Forall_impl; [exact Hy|]. intros z Hz. simpl in Hz. lra.
    + assert (Hlt : (zkey y < zkey x)%Q).
      { apply Qnot_le_lt. intros Hle. apply Qle_bool_iff in Hle. congruence. }
      constructor; [now apply IH|].
      rewrite <- (insert_by_perm zkey x l). now constructor.
Qed.

Lemma sort_by_strict (l : list CTSlice) :
  distinct_positions l -> StronglySorted z_lt (Py.sort_by zkey l).
Proof.
  induction 1 as [|x l Hx Hl IH]; simpl; [constructor|].
  apply insert_by_strict; trivial. now rewrite <- (sort_by_perm zkey l).
Qed.

Lemma strictly_sorted_unique (l1 : list CTSlice) :
  forall l2, StronglySorted z_lt l1 -> StronglySorted z_lt l2 -> Permutation l1 l2 -> l1 = l2.
Proof.
  induction l1 as [|a l1 IH]; intros l2 H1 H2 Hp.
  - now apply Permutation_nil in Hp.
  - destruct l2 as [|b l2]; [symmetry in Hp; now apply Permutation_nil in Hp|].
    inversion H1 as [|? ? Hs1 Ha]; subst. inversion H2 as [|? ? Hs2 Hb]; subst.
    assert (a = b) as ->.
    { assert (Hin : In a (b :: l2)) by (eapply Permutation_in; [exact Hp | now left]).
      assert (Hin' : In b (a :: l1))
        by (eapply Permutation_in; [symmetry; exact Hp | now left]).
      destruct Hin as [-> | Hin]; [reflexivity|].
      destruct Hin' as [-> | Hin']; [reflexivity|].
      rewrite Forall_forall in Ha, Hb.
      apply list_elem_of_In in Hin, Hin'.
      specialize (Ha _ Hin'). specialize (Hb _ Hin). simpl in Ha, Hb. lra. }
    f_equal. apply IH; trivial. now apply Permutation_cons_inv in Hp.
Qed.

Lemma sorted_slices_perm (ct1 ct2 : Folder) :
  Permutation (read_slices ct1) (read_slices ct2) ->
  distinct_positions (read_slices ct1) ->
  sorted_slices ct1 = sorted_slices ct2.
Proof.
  intros Hp Hd. unfold sorted_slices. apply strictly_sorted_unique.
  - now apply sort_by_strict.
  - apply sort_by_strict. eapply distinct_positions_perm; eauto.
  - rewrite <- !sort_by_perm. exact Hp.
Qed.

(** When no two [.dcm] slices of the folder are at the same position, the
    order in which [os.listdir] lists the folder, and the entries whose name
    does not end in [.dcm], do not change the result of extraction. *)
Theorem extract_independent_of_listing `{G : Geometry}
    (rtstruct : RTStruct) (ct1 ct2 : Folder) (structure_name : string) :
  Permutation (read_slices ct1) (read_slices ct2) ->
  distinct_positions (read_slices ct1) ->
  Stl.extract_structure_mask rtstruct ct1 structure_name
  = Stl.extract_structure_mask rtstruct ct2 structure_name.
Proof.
  intros Hp Hd. pose proof (sorted_slices_perm _ _ Hp Hd) as E.
  unfold Stl.extract_structure_mask, Stl.slice_stack.
  fold (sorted_slices ct1). fold (sorted_slices ct2). now rewrite E.
Qed.

Lemma extract_independent_of_listing_witness :
  Stl.extract_structure_mask (G := Reference.geometry) Sample.rtstruct Sample.folder
    "BolusECT_v9"
  = Stl.extract_structure_mask (G := Reference.geometry) Sample.rtstruct
      [("c.dcm", Sample.ct 10); ("a.dcm", Sample.ct 0); ("b.dcm", Sample.ct 5)]%Q
      "BolusECT_v9".
Proof.
  apply (extract_independent_of_listing (G := Reference.geometry)).
  - change (Permutation [Sample.ct 5; Sample.ct 0; Sample.ct 10]%Q
                        (rev [Sample.ct 5; Sample.ct 0; Sample.ct 10]%Q)).
    apply Permutation_rev.
  - change (distinct_positions [Sample.ct 5; Sample.ct 0; Sample.ct 10]%Q).
    repeat constructor; intros H; vm_compute in H; discriminate.
Defined.

(** ** The contours of other structures *)

(** Extraction reads the contour sequence only through the contours that
    reference the resolved ROI number: two structure sets with the same ROIs
    and the same contours for that number give the same result, whatever
    the contours of the other structures are, malformed ones included. *)
Theorem extract_ignores_other_structures `{G : Geometry}
    (rtstruct rtstruct' : RTStruct) (ct_folder : Folder) (structure_name : string) :
  StructureSetROISequence rtstruct = StructureSetROISequence rtstruct' ->
  (forall structure_index,
     find_structure_index (StructureSetROISequence rtstruct) structure_name
       = Some structure_index ->
     structure_contours rtstruct structure_index
     = structure_contours rtstruct' structure_index) ->
  Stl.extract_structure_mask rtstruct ct_folder structure_name
  = Stl.extract_structure_mask rtstruct' ct_folder structure_name.
Proof.
  intros Erois Hcs. unfold Stl.extract_structure_mask.
  destruct (Stl.slice_stack ct_folder) as [[[[slices zs] ps] dz]|]; simpl; [|reflexivity].
  destruct (Py.getitem slices 0) as [s0|]; simpl; [|reflexivity].
  rewrite <- Erois.
  destruct (find_structure_index _ _) as [idx|] eqn:Ei; [|reflexivity].
  now rewrite !paint_structure_flat, (Hcs idx eq_refl).
Qed.

Lemma extract_ignores_other_structures_witness :
  Stl.extract_structure_mask (G := Reference.geometry) Sample.rtstruct Sample.folder
    "BolusECT_v9"
  = Stl.extract_structure_mask (G := Reference.geometry)
      (mk_RTStruct [mk_ROI "Body" 1; mk_ROI "BolusECT_v9" 2]
         [mk_ROIContour 1 [mk_Contour [1; 2]%Q];
          mk_ROIContour 2 [Sample.square; Sample.shifted]])
      Sample.folder "BolusECT_v9".
Proof.
  apply (extract_ignores_other_structures (G := Reference.geometry)).
  - reflexivity.
  - intros idx [= <-]. reflexivity.
Defined.

(** ** A structure without contours *)

Lemma zeros_no_crossing (shape : nat * nat * nat) : no_crossing (Np.zeros shape) = true.
Proof.
  destruct shape as [[n r] c]. unfold no_crossing, all_cells, Np.zeros. simpl.
  apply orb_true_iff. left.
  apply forallb_forall. intros p Hp. apply list_elem_of_In, elem_of_replicate in Hp as [-> _].
  apply forallb_forall. intros row Hr. apply list_elem_of_In, elem_of_replicate in Hr as [-> _].
  apply forallb_forall. intros v Hv. apply list_elem_of_In, elem_of_replicate in Hv as [-> _].
  reflexivity.
Qed.

(** For a structure that exists but has no contour, extraction succeeds
    and returns the all-zero volume of the shape of the stack, with the
    spacing of the reference slice; that volume has no boundary at the level
    0.5 for the isosurface extraction that follows. *)
Theorem structure_without_contours `{G : Geometry}
    (rtstruct : RTStruct) (ct_folder : Folder) (structure_name : string)
    (structure_index : Z) :
  2 <= length (read_slices ct_folder) ->
  find_structure_index (StructureSetROISequence rtstruct) structure_name
    = Some structure_index ->
  structure_contours rtstruct structure_index = [] ->
  exists s0 slice_thickness,
    sorted_slices ct_folder !! 0 = Some s0 /\
    Stl.extract_structure_mask rtstruct ct_folder structure_name
    = Ok (Np.zeros (length (read_slices ct_folder), Rows s0, Columns s0),
          PixelSpacing s0, slice_thickness) /\
    no_crossing (Np.zeros (length (read_slices ct_folder), Rows s0, Columns s0)) = true.
Proof.
  intros H2 Ei Ecs.
  destruct (slice_stack_two _ H2) as (s0 & s1 & rest & Es & _).
  pose proof (extract_ok_intro rtstruct ct_folder structure_name _ _ _ _ Es Ei) as Hex.
  rewrite Ecs in Hex. simpl in Hex.
  rewrite <- sorted_slices_length, Es.
  eexists s0, _. split; [reflexivity|]. split; [exact Hex|]. apply zeros_no_crossing.
Qed.

Lemma structure_without_contours_witness :
  exists s0 slice_thickness,
    sorted_slices Sample.folder !! 0 = Some s0 /\
    Stl.extract_structure_mask (G := Reference.geometry) Sample.rtstruct Sample.folder "Body"
    = Ok (Np.zeros (length (read_slices Sample.folder), Rows s0, Columns s0),
          PixelSpacing s0, slice_thickness) /\
    no_crossing (Np.zeros (length (read_slices Sample.folder), Rows s0, Columns s0)) = true.
Proof.
  apply (structure_without_contours (G := Reference.geometry)
           Sample.rtstruct Sample.folder "Body" 1%Z).
  - vm_compute. lia.
  - reflexivity.
  - reflexivity.
Defined.

(** ** The order of the contours *)

Lemma binary_volume_cell (n rows cols : nat) (m : Np.ndarray3) (k r c : nat) :
  binary_volume n rows cols m -> k < n -> r < rows -> c < cols ->
  exists v, Np.cell m k r c = Some v.
Proof.
  intros (_ & Hlen & Hplanes) Hk Hr Hc. unfold Np.cell.
  destruct (Np.planes m !! k) as [p|] eqn:Ep; [|apply lookup_ge_None in Ep; lia].
  rewrite Forall_lookup in Hplanes. destruct (Hplanes _ _ Ep) as [Hp Hrows]. simpl.
  destruct (p !! r) as [row|] eqn:Er; [|apply lookup_ge_None in Er; lia].
  rewrite Forall_lookup in Hrows. destruct (Hrows _ _ Er) as [Hrow _]. simpl.
  destruct (row !! c) as [v|] eqn:Ec; [eauto | apply lookup_ge_None in Ec; lia].
Qed.

Lemma binary_volume_ext (n rows cols : nat) (m1 m2 : Np.ndarray3) :
  binary_volume n rows cols m1 ->
  binary_volume n rows cols m2 ->
  (forall k r c, k < n -> r < rows -> c < cols -> Np.cell m1 k r c = Np.cell m2 k r c) ->
  m1 = m2.
Proof.
  destruct m1 as [sh1 pl1], m2 as [sh2 pl2]. unfold binary_volume, Np.cell. simpl.
  intros (-> & Hl1 & Hp1) (-> & Hl2 & Hp2) Hcell. f_equal.
  rewrite Forall_lookup in Hp1, Hp2.
  apply list_eq. intros k. destruct (lt_dec k n) as [Hk|Hk].
  2:{ rewrite !(proj2 (lookup_ge_None _ _)) by lia. reflexivity. }
  destruct (pl1 !! k) as [p1|] eqn:E1; [|apply lookup_ge_None in E1; lia].
  destruct (pl2 !! k) as [p2|] eqn:E2; [|apply lookup_ge_None in E2; lia].
  destruct (Hp1 _ _ E1) as [Hr1 Hrows1]. destruct (Hp2 _ _ E2) as [Hr2 Hrows2].
  rewrite Forall_lookup in Hrows1, Hrows2.
  f_equal. apply list_eq. intros r. destruct (lt_dec r rows) as [Hr|Hr].
  2:{ rewrite !(proj2 (lookup_ge_None _ _)) by lia. reflexivity. }
  destruct (p1 !! r) as [row1|] eqn:Er1; [|apply lookup_ge_None in Er1; lia].
  destruct (p2 !! r) as [row2|] eqn:Er2; [|apply lookup_ge_None in Er2; lia].
  destruct (Hrows1 _ _ Er1) as [Hc1 _]. destruct (Hrows2 _ _ Er2) as [Hc2 _].
  f_equal. apply list_eq. intros c. destruct (lt_dec c cols) as [Hc|Hc].
  2:{ rewrite !(proj2 (lookup_ge_None _ _)) by lia. reflexivity. }
  specialize (Hcell k r c Hk Hr Hc). rewrite E1, E2 in Hcell. simpl in Hcell.
  now rewrite Er1, Er2 in Hcell.
Qed.

Lemma existsb_same_elements {A : Type} (f : A -> bool) (l l' : list A) :
  (forall x, In x l <-> In x l') -> existsb f l = existsb f l'.
Proof.
  intros H. apply eq_true_iff_eq. rewrite !existsb_exists.
  split; intros (x & Hx & Hf); exists x; split; trivial; now apply H.
Qed.

Lemma paint_contours_same_elements `{G : Geometry} (s0 : CTSlice) (pixel_spacing : Q * Q)
    (z_positions : list Q) (contours contours' : list Contour) (mask mask' : Np.ndarray3) :
  z_positions <> [] ->
  binary_volume (length z_positions) (Rows s0) (Columns s0) mask ->
  (forall contour, In contour contours <-> In contour contours') ->
  foldM (Stl.paint_contour s0 pixel_spacing z_positions) mask contours = Ok mask' ->
  foldM (Stl.paint_contour s0 pixel_spacing z_positions) mask contours' = Ok mask'.
Proof.
  intros Hz Hm Hsame H.
  pose proof (paint_contours_complete _ _ _ _ _ _ H) as Hc.
  assert (Hc' : Forall complete_points contours').
  { rewrite Forall_forall in *. intros c Hin. apply Hc.
    apply list_elem_of_In, Hsame, list_elem_of_In. exact Hin. }
  destruct (paint_contours_succeed s0 pixel_spacing z_positions contours' Hz Hc' mask Hm)
    as (m2 & H2 & Hm2).
  rewrite H2. f_equal. symmetry.
  pose proof (paint_contours_binary _ _ _ _ _ _ Hz Hm H) as Hm1.
  eapply binary_volume_ext; eauto. intros k r c Hk Hr Hc''.
  destruct (binary_volume_cell _ _ _ _ k r c Hm Hk Hr Hc'') as [old Hold].
  rewrite (paint_contours_cell _ _ _ _ _ _ k r c old H Hr Hc'' Hold).
  rewrite (paint_contours_cell _ _ _ _ _ _ k r c old H2 Hr Hc'' Hold).
  unfold union_covers. now rewrite (existsb_same_elements _ _ _ Hsame).
Qed.

(** The volume depends on the contours of the structure only as a set: if
    extraction succeeds for a structure set, it succeeds with the same
    result for any structure set with the same ROIs whose structures hold
    the same contours, in any order and any number of times. *)
Theorem extract_independent_of_contour_order `{G : Geometry}
    (rtstruct rtstruct' : RTStruct) (ct_folder : Folder) (structure_name : string)
    (r : Np.ndarray3 * (Q * Q) * Q) :
  StructureSetROISequence rtstruct = StructureSetROISequence rtstruct' ->
  (forall structure_index contour,
     In contour (structure_contours rtstruct structure_index)
     <-> In contour (structure_contours rtstruct' structure_index)) ->
  Stl.extract_structure_mask rtstruct ct_folder structure_name = Ok r ->
  Stl.extract_structure_mask rtstruct' ct_folder structure_name = Ok r.
Proof.
  intros Erois Hp H. destruct r as [[mask ps] dz].
  apply extract_ok_inv in H as (s0 & s1 & rest & idx & Es & Ei & -> & -> & Hf).
  rewrite Erois in Ei. rewrite (extract_ok_intro _ _ _ _ _ _ _ Es Ei).
  erewrite paint_contours_same_elements; [reflexivity| | |exact (Hp idx)|exact Hf].
  - discriminate.
  - rewrite length_map. apply zeros_binary.
Qed.

Lemma extract_independent_of_contour_order_witness :
  Stl.extract_structure_mask (G := Reference.geometry)
    (mk_RTStruct [mk_ROI "Body" 1; mk_ROI "BolusECT_v9" 2]
       [mk_ROIContour 2 [Sample.shifted]; mk_ROIContour 1 [];
        mk_ROIContour 2 [Sample.square; Sample.shifted]])
    Sample.folder "BolusECT_v9"
  = Ok (Sample.mask, (1, 1)%Q, 5%Q).
Proof.
  apply (extract_independent_of_contour_order (G := Reference.geometry) Sample.rtstruct).
  - reflexivity.
  - intros idx contour. unfold structure_contours.
    cbn [flat_map ROIContourSequence ReferencedROINumber ContourSequence Sample.rtstruct].
    destruct (Z.eqb_spec 2 idx) as [<-|Hne]; [simpl; tauto|].
    destruct (1 =? idx)%Z; reflexivity.
  - vm_compute. reflexivity.
Defined.

(** ** The orientation of the rasterized mask *)

(** The two-dimensional mask of a contour has the shape (Rows, Columns), and
    its cell in row [r] and column [c] is the point-in-polygon test of the
    point with x = c and y = r against the polygon whose vertices are the
    contour points in the (column, row) coordinates of lines 85-86. *)
Theorem rasterized_cell_tests_grid_point `{G : Geometry}
    (s0 : CTSlice) (pixel_spacing : Q * Q) (z_positions : list Q) (contour : Contour)
    (slice_idx : nat) (mask_slice : Np.ndarray2 bool) :
  Stl.rasterize_contour s0 pixel_spacing z_positions contour = Ok (slice_idx, mask_slice) ->
  exists pts,
    Np.reshape3 (ContourData contour) = Ok pts /\
    Np.shape2 mask_slice = (Rows s0, Columns s0) /\
    length (Np.rows2 mask_slice) = Rows s0 /\
    forall r c, r < Rows s0 -> c < Columns s0 ->
      Np.getitem2 mask_slice r c
      = Some (contains_point
                (map (fun p => ((px p - px (ImagePositionPatient s0)) / fst pixel_spacing,
                                (py p - py (ImagePositionPatient s0)) / snd pixel_spacing)%Q)
                     pts)
                (Q_of_nat c, Q_of_nat r)).
Proof.
  intros H. apply rasterize_contour_ok in H as (pts & Hslice & ->).
  exists pts. repeat split.
  - unfold Stl.contour_slice in Hslice.
    destruct (Np.reshape3 _) as [pts'|]; simpl in Hslice; [|discriminate].
    destruct (Np.getitem_0_2 pts'); simpl in Hslice; [|discriminate].
    destruct (Np.argmin _); simpl in Hslice; [|discriminate]. congruence.
  - apply flag_rows_length.
  - intros r c Hr Hc. rewrite flag_rows_lookup by trivial.
    now rewrite polygon_coordinates.
Qed.

Lemma rasterized_cell_tests_grid_point_witness :
  exists pts,
    Np.reshape3 (ContourData Sample.square) = Ok pts /\
    forall r c, r < 4 -> c < 4 ->
      Np.getitem2
        (Np.mk_ndarray2 (4, 4)
           [[false; false; false; false]; [false; true; true; false];
            [false; true; true; false]; [false; false; false; false]]) r c
      = Some (Reference.even_odd
                (map (fun p => ((px p - 0) / 1, (py p - 0) / 1)%Q) pts)
                (Q_of_nat c, Q_of_nat r)).
Proof.
  destruct (rasterized_cell_tests_grid_point (G := Reference.geometry) (Sample.ct 0)
              (1, 1)%Q [0; 5; 10]%Q Sample.square 1
              (Np.mk_ndarray2 (4, 4)
                 [[false; false; false; false]; [false; true; true; false];
                  [false; true; true; false]; [false; false; false; false]]))
    as (pts & H1 & _ & _ & H2).
  - vm_compute. reflexivity.
  - exists pts. split; [exact H1 | exact H2].
Defined.

(** ** The command-line entry point *)

(** [main] of src/stl.py is all or nothing.  When it raises, nothing was
    written or printed.  When it returns, the RTSTRUCT and the folder were
    readable, the folder held at least two slices, some ROI is named
    [BolusECT_v9] case-insensitively, exactly one file, [BolusECT_v9.stl],
    was added, and the two lines were printed after it. *)
Theorem main_all_or_nothing `{G : Geometry} `{R : Runtime} (w : World) :
  match StlMain.main w with
  | (Raise e, w') => w' = w
  | (Ok _, w') =>
      exists rtstruct folder mesh,
        dcmread StlMain.rtstruct_path = Ok rtstruct /\
        listdir StlMain.ct_folder = Ok folder /\
        2 <= length (read_slices folder) /\
        ~ no_roi_named rtstruct "BolusECT_v9" /\
        files w' = ("BolusECT_v9.stl", mesh) :: files w /\
        stdout w' = ["📏 Modelo centralizado no ponto (0,0,0)";
                     "✅ STL exportado para: BolusECT_v9.stl"] ++ stdout w
  end.
Proof.
  unfold StlMain.main, load_rtstruct.
  destruct (dcmread StlMain.rtstruct_path) as [rt|]; simpl; [|reflexivity].
  destruct (listdir StlMain.ct_folder) as [folder|]; simpl; [|reflexivity].
  destruct (Stl.extract_structure_mask _ _ _) as [[[mask ps] dz]|] eqn:E; [|reflexivity].
  unfold Stl.mask_to_stl.
  destruct (marching_cubes _ _ _) as [[[[verts fcs] normals] vals]|]; [|reflexivity].
  apply extract_ok_inv in E as (s0 & s1 & rest & idx & Es & Ei & _).
  eexists rt, folder, _. repeat split.
  - rewrite <- sorted_slices_length, Es. simpl. lia.
  - intros Hno. apply find_structure_index_none in Hno.
    unfold StlMain.structure_name in Ei. congruence.
Qed.

(** ** The interface *)

Lemma log_content (msg : string) (g : Gui.Widgets) :
  Gui.content (Gui.text_log (Gui.log msg g))
  = String.append (Gui.content (Gui.text_log g)) (String.append msg newline).
Proof. reflexivity. Qed.

Lemma process_refuses `{G : Geometry} `{R : Runtime} (g : Gui.Widgets) (w : World) :
  Gui.entry_rt g = "" \/ Gui.entry_ct g = "" \/ Gui.combo_struct g = "" \/ Gui.entry_out g = "" ->
  Gui.process g w
  = (Gui.show (Gui.showerror "Erro" "Preencha todos os campos antes de executar.")
       (Gui.log "Erro: Preencha todos os campos antes de executar." g),
     w).
Proof.
  intros H. unfold Gui.process, Gui.process_body.
  replace (forallb truthy _) with false; [reflexivity|].
  symmetry. simpl.
  destruct H as [-> | [-> | [-> | ->]]]; simpl;
    repeat (rewrite ?andb_false_r, ?andb_false_l; try reflexivity).
Qed.

(** When one of the four fields is empty, [process] reads nothing and
    writes nothing: whatever the disk holds, it logs and shows the request
    to fill in all the fields, and the files are as before. *)
Theorem process_with_empty_field `{G : Geometry} `{R : Runtime}
    (g : Gui.Widgets) (w : World) :
  Gui.entry_rt g = "" \/ Gui.entry_ct g = "" \/ Gui.combo_struct g = "" \/ Gui.entry_out g = "" ->
  Gui.process g w
  = (Gui.show (Gui.showerror "Erro" "Preencha todos os campos antes de executar.")
       (Gui.log "Erro: Preencha todos os campos antes de executar." g),
     w).
Proof. apply process_refuses. Qed.

Lemma process_with_empty_field_witness :
  Gui.process (G := Reference.geometry) (R := SampleDisk.runtime) SampleDisk.widgets
    (mk_World [] [])
  = (Gui.show (Gui.showerror "Erro" "Preencha todos os campos antes de executar.")
       (Gui.log "Erro: Preencha todos os campos antes de executar." SampleDisk.widgets),
     mk_World [] []).
Proof.
  apply (process_with_empty_field (G := Reference.geometry) (R := SampleDisk.runtime)).
  right. right. left. reflexivity.
Defined.

(** [process] never lets an exception escape and always ends with exactly
    one message box that tells what happened.  Either it shows the error box
    with the text it also logged, and no file was written; or it shows the
    success box naming the output path, the log holds the two progress
    lines, and exactly one file was added under that path.  The entries and
    the selection are left as they were and the log is read-only again. *)
Theorem process_reports_outcome `{G : Geometry} `{R : Runtime}
    (g : Gui.Widgets) (w : World) :
  let g' := fst (Gui.process g w) in
  let w' := snd (Gui.process g w) in
  Gui.entry_rt g' = Gui.entry_rt g /\
  Gui.entry_ct g' = Gui.entry_ct g /\
  Gui.entry_out g' = Gui.entry_out g /\
  Gui.combo_values g' = Gui.combo_values g /\
  Gui.combo_struct g' = Gui.combo_struct g /\
  Gui.state (Gui.text_log g') = Gui.disabled /\
  ((exists msg logged,
      Gui.boxes g' = Gui.boxes g ++ [Gui.showerror "Erro" msg] /\
      Gui.content (Gui.text_log g')
      = String.append logged (String.append (String.append "Erro: " msg) newline) /\
      w' = w)
   \/
   (exists mesh,
      Gui.boxes g'
      = Gui.boxes g ++ [Gui.showinfo "Concluído"
                          (String.append "STL salvo em:"
                             (String.append newline (Gui.entry_out g)))] /\
      Gui.content (Gui.text_log g')
      = String.append
          (String.append (Gui.content (Gui.text_log g))
             (String.append "Processando..." newline))
          (String.append (String.append "STL gerado com sucesso: " (Gui.entry_out g)) newline) /\
      files w' = (Gui.entry_out g, mesh) :: files w /\
      stdout w' = stdout w)).
Proof.
  unfold Gui.process, Gui.process_body.
  destruct (negb (forallb truthy _)).
  { simpl. repeat split. left. eexists _, _. repeat split. }
  destruct (rt ← load_rtstruct (Gui.entry_rt g); folder ← listdir (Gui.entry_ct g);
            StlComInterface.extract_structure_mask rt folder (Gui.combo_struct g))
    as [[[mask ps] dz]|e].
  2:{ simpl. repeat split. left. eexists _, _. repeat split. }
  unfold StlComInterface.mask_to_stl.
  destruct (marching_cubes _ _ _) as [[[[verts fcs] normals] vals]|e].
  2:{ simpl. repeat split. left. eexists _, _. repeat split. }
  simpl. repeat split. right. eexists. repeat split.
Qed.



(** After [load_structures] has read a structure set without ROIs, or has
    failed to read one while nothing was selected, the selection is empty
    and [process] stops at the check of the fields: nothing is written. *)
Theorem process_after_empty_load `{G : Geometry} `{R : Runtime}
    (g : Gui.Widgets) (w : World) :
  (exists rt, load_rtstruct (Gui.entry_rt g) = Ok rt /\ StructureSetROISequence rt = [])
  \/ ((exists e, load_rtstruct (Gui.entry_rt g) = Raise e) /\ Gui.combo_struct g = "") ->
  Gui.combo_struct (Gui.load_structures g) = "" /\
  snd (Gui.process (Gui.load_structures g) w) = w /\
  last (Gui.boxes (fst (Gui.process (Gui.load_structures g) w)))
  = Some (Gui.showerror "Erro" "Preencha todos os campos antes de executar.").
Proof.
  intros H.
  assert (Hsel : Gui.combo_struct (Gui.load_structures g) = "").
  { unfold Gui.load_structures.
    destruct H as [(rt & -> & Hrois) | [[e ->] Hsel]]; [|exact Hsel].
    unfold StlComInterface.get_structure_names. now rewrite Hrois. }
  split; [exact Hsel|].
  rewrite process_refuses by auto. simpl. split; [reflexivity|].
  apply last_snoc.
Qed.

Lemma process_after_empty_load_witness :
  snd (Gui.process (G := Reference.geometry) (R := SampleDisk.runtime)
         (Gui.load_structures (R := SampleDisk.runtime)
            (Gui.select_rt "missing.dcm" SampleDisk.widgets))
         (mk_World [] []))
  = mk_World [] [].
Proof.
  apply (process_after_empty_load (G := Reference.geometry) (R := SampleDisk.runtime)
           (Gui.select_rt "missing.dcm" SampleDisk.widgets) (mk_World [] [])).
  right. split; [|reflexivity]. eexists. reflexivity.
Defined.
